(** * restart_asg.py: rolling restart of an autoscaling group

    A shallow embedding of [restart_asg.py].  The script is a client of
    three provider services (autoscaling, ecs, ec2) reached through boto3,
    of the wall clock ([time.time], [time.sleep]) and of the console
    ([print]).  The embedding keeps the script's control flow and makes
    those effects explicit:

    - a [World] carries the clock, in seconds, and the log of everything
      the script did so far (provider calls with their responses, sleeps,
      prints); [time.sleep] moves the clock by its argument and a provider
      call by the time the provider takes;
    - a [Provider] answers a request as a function of the whole log so far,
      so stateless and stateful providers are both covered, and says how
      long the call took;
    - a computation is a function [World -> result A * World]; a Python
      exception is the outcome [Raise e] and keeps the world reached;
    - [while] loops take fuel; [OutOfFuel] is the outcome of a loop that is
      still running when the fuel is spent. *)

From Stdlib Require Import String ZArith List Bool Lia Arith.
Import ListNotations.
Local Open Scope string_scope.
Local Open Scope list_scope.
Local Open Scope Z_scope.

(** ** Provider data, as the boto3 responses carry it *)

(** One element of [group['Instances']]. *)
Record asg_instance := mk_asg_instance {
  InstanceId : string;
  LifecycleState : string
}.

(** One element of [response['AutoScalingGroups']]. *)
Record asg_group := mk_asg_group {
  DesiredCapacity : Z;
  Instances : list asg_instance
}.

(** One element of [all_instances['containerInstances']]. *)
Record container_instance := mk_container_instance {
  ec2InstanceId : string;
  containerInstanceArn : string;
  runningTasksCount : Z
}.

(** One element of [reservation['Instances']]; [State_Name] is
    [instance['State']['Name']]. *)
Record ec2_instance := mk_ec2_instance {
  State_Name : string
}.

(** One element of [response['Reservations']]. *)
Record reservation := mk_reservation {
  Reservation_Instances : list ec2_instance
}.

(** The response dictionaries, by the keys the script reads. *)
Inductive payload :=
| PGroups (AutoScalingGroups : list asg_group)
| PList (containerInstanceArns : list string) (nextToken : option string)
| PContainers (containerInstances : list container_instance)
| PUpdate (failures : list string)
| PReservations (Reservations : list reservation)
| PNone.

(** The requests the script sends.  The first argument is the region the
    client was built for; the others are the keyword arguments. *)
Inductive request :=
| DescribeAutoScalingGroups (region : string) (AutoScalingGroupNames : list string)
| ListContainerInstances (region cluster : string) (nextToken : option string)
| DescribeContainerInstances (region cluster : string) (containerInstances : list string)
| UpdateContainerInstancesState (region cluster : string)
    (containerInstances : list string) (status : string)
| TerminateInstances (region : string) (InstanceIds : list string)
| WaitInstanceTerminated (region : string) (InstanceIds : list string)
| DescribeInstances (region : string) (InstanceIds : list string)
| WaitInstanceStatusOk (region : string) (InstanceIds : list string)
    (MaxAttempts Delay : Z).

(** Python exceptions the script can meet. *)
Inductive exn :=
| ClientError (detail : string)
| WaiterError (detail : string)
| KeyError (key : string)
| IndexError
| PyException (message : string).

Inductive response :=
| Returned (p : payload)
| Raised (e : exn).

(** What the script prints, one constructor per format string. *)
Inductive msg :=
| MsgSep                                   (* "--------------------" *)
| MsgActiveInstances (n : nat)             (* "Active Instances: %s" *)
| MsgDraining (instance_id : string)       (* "Draining: {}" *)
| MsgDrained (instance_id : string)        (* "Drained: {}" *)
| MsgTerminating (instance_id : string)    (* "Terminating: {}" *)
| MsgTerminated (instance_id : string)     (* "Terminated: {}" *)
| MsgPPrint (p : payload)                  (* pprint.pprint(response) *)
| MsgCompleted (done total : nat)          (* "Completed {}/{} instances" *)
| MsgActiveTasks (running_tasks : Z)       (* "Active Tasks: {}" *)
| MsgDrainTimedOut                         (* "Timed out waiting for instance to drain." *)
| MsgWaitingNew (asg_name : string)        (* "Waiting for new instances to be running in %s..." *)
| MsgFoundRunning (n : nat) (capacity : Z) (* "Found %s running instances, waiting for %s" *)
| MsgWaitingHealthy (n : nat)              (* "Waiting for %s healthy instances" *)
| MsgFoundHealthy (n : nat)                (* "Found %s healthy instances" *)
| MsgOriginal (ids : list (list string))   (* "Original Instances: %s" *)
| MsgFinal (ids : list (list string))      (* "Final Instances: %s" *)
| MsgTotalTime (seconds : Z)               (* "Total Time: %s" *)
| MsgDone.                                 (* "Done!" *)

Inductive event :=
| EvCall (rq : request) (rs : response)
| EvSleep (seconds : Z)
| EvPrint (m : msg).

(** ** World, provider and the computation monad *)

(** [log] is newest first. *)
Record World := mkWorld {
  clock : Z;
  log : list event
}.

(** A provider answers from the log so far and the request; [latency] is
    the whole number of seconds the call takes on the wall clock. *)
Record Provider := mkProvider {
  respond : list event -> request -> response;
  latency : list event -> request -> N
}.

Inductive result (A : Type) :=
| Ok (a : A)
| Raise (e : exn)
| OutOfFuel.

Arguments Ok {A} a.
Arguments Raise {A} e.
Arguments OutOfFuel {A}.

Definition M (A : Type) : Type := World -> result A * World.

Definition ret {A} (a : A) : M A := fun w => (Ok a, w).

Definition raise {A} (e : exn) : M A := fun w => (Raise e, w).

Definition out_of_fuel {A} : M A := fun w => (OutOfFuel, w).

Definition bind {A B} (m : M A) (k : A -> M B) : M B :=
  fun w =>
    match m w with
    | (Ok a, w') => k a w'
    | (Raise e, w') => (Raise e, w')
    | (OutOfFuel, w') => (OutOfFuel, w')
    end.

Declare Scope prog_scope.
Delimit Scope prog_scope with prog.
Notation "x <- c ;; k" := (bind c (fun x => k))
  (at level 100, c at next level, right associativity) : prog_scope.
Notation "c ;; k" := (bind c (fun _ => k))
  (at level 100, right associativity) : prog_scope.
Local Open Scope prog_scope.

(** [try: body / except Exception as e: handler]. *)
Definition try_except {A} (body : M A) (handler : exn -> M A) : M A :=
  fun w =>
    match body w with
    | (Raise e, w') => handler e w'
    | other => other
    end.

(** [for x in xs: body]; the body answers [Some r] for [return r] and
    [None] when it falls off its end or runs [continue]. *)
Fixpoint for_loop {A R} (xs : list A) (body : A -> M (option R)) : M (option R) :=
  match xs with
  | [] => ret None
  | x :: rest =>
      r <- body x ;;
      match r with
      | Some v => ret (Some v)
      | None => for_loop rest body
      end
  end.

(** [enumerate(xs)]. *)
Definition enumerate {A} (xs : list A) : list (nat * A) :=
  combine (seq 0 (length xs)) xs.

(** [len(xs)] as a Python integer. *)
Definition len {A} (xs : list A) : Z := Z.of_nat (length xs).

(** Truth value of [response.get('nextToken', None)] and of
    [ecs_cluster]: [None] and the empty string are false. *)
Definition truthy (s : option string) : bool :=
  match s with
  | Some s' => negb (s' =? "")%string
  | None => false
  end.

(** [time.time()]. *)
Definition time_time : M Z := fun w => (Ok (clock w), w).

(** [time.sleep(seconds)]. *)
Definition sleep (seconds : Z) : M unit :=
  fun w => (Ok tt, mkWorld (clock w + seconds) (EvSleep seconds :: log w)).

(** [print(...)]. *)
Definition print (m : msg) : M unit :=
  fun w => (Ok tt, mkWorld (clock w) (EvPrint m :: log w)).

(** Dictionary reads: a response without the key raises [KeyError]. *)
Definition get_AutoScalingGroups (p : payload) : M (list asg_group) :=
  match p with
  | PGroups gs => ret gs
  | _ => raise (KeyError "AutoScalingGroups")
  end.

Definition get_containerInstanceArns (p : payload) : M (list string) :=
  match p with
  | PList arns _ => ret arns
  | _ => raise (KeyError "containerInstanceArns")
  end.

(** [response.get('nextToken', None)]. *)
Definition get_nextToken (p : payload) : option string :=
  match p with
  | PList _ tok => tok
  | _ => None
  end.

Definition get_containerInstances (p : payload) : M (list container_instance) :=
  match p with
  | PContainers cis => ret cis
  | _ => raise (KeyError "containerInstances")
  end.

Definition get_failures (p : payload) : M (list string) :=
  match p with
  | PUpdate fs => ret fs
  | _ => raise (KeyError "failures")
  end.

Definition get_Reservations (p : payload) : M (list reservation) :=
  match p with
  | PReservations rs => ret rs
  | _ => raise (KeyError "Reservations")
  end.

(** [xs[0]]. *)
Definition index0 {A} (xs : list A) : M A :=
  match xs with
  | x :: _ => ret x
  | [] => raise IndexError
  end.

(** [repr] of the list of failures, each failure given by its own repr. *)
Definition repr_list (items : list string) : string :=
  ("[" ++ String.concat ", " items ++ "]")%string.

Definition DRAIN_WAIT : Z := 600.

Section Program.

Variable aws : Provider.

(** The world after the provider answered [rq]. *)
Definition after_call (rq : request) (w : World) : World :=
  mkWorld (clock w + Z.of_N (latency aws (log w) rq))
          (EvCall rq (respond aws (log w) rq) :: log w).

(** A boto3 client or waiter call. *)
Definition call (rq : request) : M payload :=
  fun w =>
    match respond aws (log w) rq with
    | Returned p => (Ok p, after_call rq w)
    | Raised e => (Raise e, after_call rq w)
    end.

(** The inner loop of [get_groups], lines 30-33. *)
Definition in_service_ids (group : asg_group) : list string :=
  fold_left
    (fun ids instance =>
       if (LifecycleState instance =? "InService")%string
       then ids ++ [InstanceId instance]
       else ids)
    (Instances group) [].

Definition get_groups (asg_name region : string) : M (list (Z * list string)) :=
  response <- call (DescribeAutoScalingGroups region [asg_name]) ;;
  groups <- get_AutoScalingGroups response ;;
  ret (fold_left
         (fun group_info group =>
            let ids := in_service_ids group in
            let info := (DesiredCapacity group, ids) in
            group_info ++ [info])
         groups []).

Definition get_running_tasks (region ecs_cluster container_instance_id : string) : M Z :=
  response <- call (DescribeContainerInstances region ecs_cluster [container_instance_id]) ;;
  cis <- get_containerInstances response ;;
  first <- index0 cis ;;
  ret (runningTasksCount first).

(** The [while response.get('nextToken', None)] loop, lines 43-45.  The
    request of line 44 is the request of line 41: it carries no token. *)
Fixpoint list_more (fuel : nat) (region ecs_cluster : string)
    (response : payload) (container_instances : list string) : M (list string) :=
  if truthy (get_nextToken response) then
    match fuel with
    | O => out_of_fuel
    | S fuel' =>
        response' <- call (ListContainerInstances region ecs_cluster None) ;;
        arns <- get_containerInstanceArns response' ;;
        list_more fuel' region ecs_cluster response' (container_instances ++ arns)
    end
  else ret container_instances.

(** Lines 41-45: the listing of the cluster's container instances. *)
Definition list_container_instances (fuel : nat) (region ecs_cluster : string)
    : M (list string) :=
  response <- call (ListContainerInstances region ecs_cluster None) ;;
  container_instances <- get_containerInstanceArns response ;;
  list_more fuel region ecs_cluster response container_instances.

(** The [while running_tasks != 0 and time.time() < end_time] loop,
    lines 65-68; answers the last count read. *)
Fixpoint drain_wait (fuel : nat) (region ecs_cluster container_instance_id : string)
    (end_time running_tasks : Z) : M Z :=
  if running_tasks =? 0 then ret running_tasks
  else
    now <- time_time ;;
    if now <? end_time then
      match fuel with
      | O => out_of_fuel
      | S fuel' =>
          sleep 30 ;;
          print (MsgActiveTasks running_tasks) ;;
          running_tasks' <- get_running_tasks region ecs_cluster container_instance_id ;;
          drain_wait fuel' region ecs_cluster container_instance_id end_time running_tasks'
      end
    else ret running_tasks.

(** Lines 53-71: the body of [if instance['ec2InstanceId'] == instance_id]. *)
Definition drain_found (fuel : nat) (region ecs_cluster : string)
    (instance : container_instance) : M unit :=
  let container_instance_id := containerInstanceArn instance in
  response <- call (UpdateContainerInstancesState region ecs_cluster
                      [container_instance_id] "DRAINING") ;;
  failures <- get_failures response ;;
  match failures with
  | _ :: _ => raise (PyException ("Failed to drain: " ++ repr_list failures)%string)
  | [] =>
      running_tasks <- get_running_tasks region ecs_cluster container_instance_id ;;
      now <- time_time ;;
      let end_time := now + DRAIN_WAIT in
      drain_wait fuel region ecs_cluster container_instance_id end_time running_tasks ;;
      now' <- time_time ;;
      if end_time <? now' then print MsgDrainTimedOut else ret tt
  end.

Definition drain_instance (fuel : nat) (instance_id ecs_cluster region : string) : M unit :=
  container_instances <- list_container_instances fuel region ecs_cluster ;;
  all_instances <- call (DescribeContainerInstances region ecs_cluster container_instances) ;;
  cis <- get_containerInstances all_instances ;;
  r <- for_loop cis
         (fun instance =>
            if (ec2InstanceId instance =? instance_id)%string
            then drain_found fuel region ecs_cluster instance ;; ret (Some tt)
            else ret None) ;;
  match r with
  | Some _ => ret tt
  | None =>
      raise (PyException ("Could not find " ++ instance_id ++ " in " ++ ecs_cluster
                            ++ " (" ++ region ++ ")")%string)
  end.

(** The body of [for capacity, instance_ids in group_info], lines 121-131. *)
Definition wait_group (region : string) (info : Z * list string) : M (option unit) :=
  let '(capacity, instance_ids) := info in
  sleep 30 ;;
  if negb (len instance_ids =? capacity) then
    print (MsgFoundRunning (length instance_ids) capacity) ;;
    ret None
  else
    print (MsgWaitingHealthy (length instance_ids)) ;;
    call (WaitInstanceStatusOk region instance_ids 100 15) ;;
    print (MsgFoundHealthy (length instance_ids)) ;;
    ret (Some tt).

(** The [while time.time() < end_time] loop, lines 118-131. *)
Fixpoint wait_loop (fuel : nat) (asg_name region : string) (end_time : Z) : M unit :=
  now <- time_time ;;
  if now <? end_time then
    match fuel with
    | O => out_of_fuel
    | S fuel' =>
        group_info <- get_groups asg_name region ;;
        r <- for_loop group_info (wait_group region) ;;
        match r with
        | Some _ => ret tt
        | None => wait_loop fuel' asg_name region end_time
        end
    end
  else ret tt.

Definition wait_for_running (fuel : nat) (asg_name region : string) (timeout : Z) : M unit :=
  now <- time_time ;;
  let end_time := now + timeout * 60 in
  print (MsgWaitingNew asg_name) ;;
  wait_loop fuel asg_name region end_time.

(** The default of [wait_for_running]'s [timeout] parameter. *)
Definition default_timeout : Z := 10.

Definition print_sep : M unit := print MsgSep.

(** Lines 96-100: the body of the [try] statement; answers [true], for
    control reaching line 109. *)
Definition terminate_and_wait (region instance_id : string) : M bool :=
  print (MsgTerminating instance_id) ;;
  call (TerminateInstances region [instance_id]) ;;
  sleep 10 ;;
  call (WaitInstanceTerminated region [instance_id]) ;;
  print (MsgTerminated instance_id) ;;
  ret true.

(** Lines 102-108: the [except Exception] handler; answers [false] for
    [continue], and the bare [raise] raises the exception caught. *)
Definition terminate_handler (region instance_id : string) (e : exn) : M bool :=
  response <- call (DescribeInstances region [instance_id]) ;;
  print (MsgPPrint response) ;;
  reservations <- get_Reservations response ;;
  reservation0 <- index0 reservations ;;
  instance0 <- index0 (Reservation_Instances reservation0) ;;
  let state := State_Name instance0 in
  if (state =? "terminated")%string then ret false else raise e.

(** Lines 95-108. *)
Definition terminate_step (region instance_id : string) : M bool :=
  try_except (terminate_and_wait region instance_id)
             (terminate_handler region instance_id).

(** Lines 90-94: the separator and [if ecs_cluster: ...]. *)
Definition drain_step (fuel : nat) (region : string) (ecs_cluster : option string)
    (instance_id : string) : M unit :=
  print_sep ;;
  match ecs_cluster with
  | Some cluster =>
      if truthy ecs_cluster then
        print (MsgDraining instance_id) ;;
        drain_instance fuel instance_id cluster region ;;
        print (MsgDrained instance_id)
      else ret tt
  | None => ret tt
  end.

(** Lines 90-110: the body of [for idx, instance_id in enumerate(instance_ids)]. *)
Definition restart_instance (fuel : nat) (asg_name region : string)
    (ecs_cluster : option string) (total : nat) (item : nat * string)
    : M (option unit) :=
  let '(idx, instance_id) := item in
  drain_step fuel region ecs_cluster instance_id ;;
  proceed <- terminate_step region instance_id ;;
  if proceed : bool then
    wait_for_running fuel asg_name region default_timeout ;;
    print (MsgCompleted (idx + 1) total) ;;
    ret None
  else ret None.

(** Lines 88-110: the body of [for capacity, instance_ids in group_info]. *)
Definition restart_group (fuel : nat) (asg_name region : string)
    (ecs_cluster : option string) (info : Z * list string) : M (option unit) :=
  let '(capacity, instance_ids) := info in
  print (MsgActiveInstances (length instance_ids)) ;;
  for_loop (enumerate instance_ids)
    (restart_instance fuel asg_name region ecs_cluster (length instance_ids)).

Definition restart_all (fuel : nat) (asg_name region : string)
    (ecs_cluster : option string) : M unit :=
  group_info <- get_groups asg_name region ;;
  for_loop group_info (restart_group fuel asg_name region ecs_cluster) ;;
  ret tt.

Definition main (fuel : nat) (asg_name region : string) (ecs_cluster : option string)
    : M unit :=
  start_time <- time_time ;;
  before <- get_groups asg_name region ;;
  let original_instances := map snd before in
  restart_all fuel asg_name region ecs_cluster ;;
  after <- get_groups asg_name region ;;
  let final_instances := map snd after in
  print_sep ;;
  now <- time_time ;;
  let total_time := now - start_time in
  print (MsgOriginal original_instances) ;;
  print (MsgFinal final_instances) ;;
  print (MsgTotalTime total_time) ;;
  print MsgDone.

End Program.

(** ** Concrete providers and worlds *)

Definition w0 : World := mkWorld 0 [].

Definition no_latency : list event -> request -> N := fun _ _ => 0%N.

(** A group of two in-service members and desired capacity 2.  Every call
    succeeds, except that the wait for the termination of [i-1] raises;
    the instance is then reported as terminated. *)
Definition web_asg : asg_group :=
  mk_asg_group 2 [mk_asg_instance "i-1" "InService"; mk_asg_instance "i-2" "InService"].

Definition flaky_wait : Provider :=
  mkProvider
    (fun _ rq =>
       match rq with
       | DescribeAutoScalingGroups _ _ => Returned (PGroups [web_asg])
       | WaitInstanceTerminated _ ids =>
           if list_eq_dec string_dec ids ["i-1"%string]
           then Raised (WaiterError "Max attempts exceeded")
           else Returned PNone
       | DescribeInstances _ _ =>
           Returned (PReservations [mk_reservation [mk_ec2_instance "terminated"]])
       | _ => Returned PNone
       end)
    no_latency.

(** The provider knows no group under the name asked for: the description
    comes back with an empty list of groups. *)
Definition no_such_group : Provider :=
  mkProvider
    (fun _ rq =>
       match rq with
       | DescribeAutoScalingGroups _ _ => Returned (PGroups [])
       | _ => Returned PNone
       end)
    no_latency.

(** The wait for the termination of [i-1] raises, and the instance is
    gone from the provider's records when the handler asks for it. *)
Definition vanished_instance : Provider :=
  mkProvider
    (fun _ rq =>
       match rq with
       | DescribeAutoScalingGroups _ _ => Returned (PGroups [web_asg])
       | WaitInstanceTerminated _ _ => Raised (WaiterError "Max attempts exceeded")
       | DescribeInstances _ _ => Returned (PReservations [])
       | DescribeContainerInstances _ _ _ => Returned (PContainers [])
       | _ => Returned PNone
       end)
    no_latency.

(** The wait for a termination raises and the instance is then found
    still shutting down. *)
Definition stuck_instance : Provider :=
  mkProvider
    (fun _ rq =>
       match rq with
       | DescribeAutoScalingGroups _ _ => Returned (PGroups [web_asg])
       | WaitInstanceTerminated _ _ => Raised (WaiterError "Max attempts exceeded")
       | DescribeInstances _ _ =>
           Returned (PReservations [mk_reservation [mk_ec2_instance "shutting-down"]])
       | _ => Returned PNone
       end)
    no_latency.

(** A cluster whose listing has two pages: the first answer carries a
    continuation token, and the second page is served only to a request
    that presents it.  [i-1] is registered as [arn-1] on the first page and
    [i-2] as [arn-2] on the second; nothing runs on either. *)
Definition cluster_records : list container_instance :=
  [mk_container_instance "i-1" "arn-1" 0; mk_container_instance "i-2" "arn-2" 0].

Definition two_pages : Provider :=
  mkProvider
    (fun _ rq =>
       match rq with
       | DescribeAutoScalingGroups _ _ => Returned (PGroups [web_asg])
       | ListContainerInstances _ _ None => Returned (PList ["arn-1"] (Some "page-2"))
       | ListContainerInstances _ _ (Some _) => Returned (PList ["arn-2"] None)
       | DescribeContainerInstances _ _ arns =>
           Returned (PContainers
                       (filter (fun ci => existsb (String.eqb (containerInstanceArn ci)) arns)
                               cluster_records))
       | UpdateContainerInstancesState _ _ _ _ => Returned (PUpdate [])
       | _ => Returned PNone
       end)
    no_latency.

(** A cluster of one page holding [i-1] only, with no task running. *)
Definition one_page : Provider :=
  mkProvider
    (fun _ rq =>
       match rq with
       | DescribeAutoScalingGroups _ _ => Returned (PGroups [web_asg])
       | ListContainerInstances _ _ _ => Returned (PList ["arn-1"] None)
       | DescribeContainerInstances _ _ _ =>
           Returned (PContainers [mk_container_instance "i-1" "arn-1" 0])
       | UpdateContainerInstancesState _ _ _ _ => Returned (PUpdate [])
       | _ => Returned PNone
       end)
    no_latency.

(** A group that stays one member short of its desired capacity. *)
Definition short_asg : asg_group :=
  mk_asg_group 2 [mk_asg_instance "i-1" "InService"; mk_asg_instance "i-3" "Pending"].

Definition never_recovers : Provider :=
  mkProvider
    (fun _ rq =>
       match rq with
       | DescribeAutoScalingGroups _ _ => Returned (PGroups [short_asg])
       | _ => Returned PNone
       end)
    no_latency.

(** A cluster of one page holding [i-1], on which three tasks keep
    running; every provider call takes one second. *)
Definition busy_forever : Provider :=
  mkProvider
    (fun _ rq =>
       match rq with
       | DescribeAutoScalingGroups _ _ => Returned (PGroups [web_asg])
       | ListContainerInstances _ _ _ => Returned (PList ["arn-1"] None)
       | DescribeContainerInstances _ _ _ =>
           Returned (PContainers [mk_container_instance "i-1" "arn-1" 3])
       | UpdateContainerInstancesState _ _ _ _ => Returned (PUpdate [])
       | _ => Returned PNone
       end)
    (fun _ _ => 1%N).

(** The container service refuses to set [arn-1] to DRAINING. *)
Definition drain_rejected : Provider :=
  mkProvider
    (fun _ rq =>
       match rq with
       | DescribeAutoScalingGroups _ _ => Returned (PGroups [web_asg])
       | ListContainerInstances _ _ _ => Returned (PList ["arn-1"] None)
       | DescribeContainerInstances _ _ _ =>
           Returned (PContainers [mk_container_instance "i-1" "arn-1" 3])
       | UpdateContainerInstancesState _ _ _ _ =>
           Returned (PUpdate ["{'arn': 'arn-1', 'reason': 'INACTIVE'}"])
       | _ => Returned PNone
       end)
    no_latency.

(** The group is at capacity but its instances never pass the status
    checks: the health-check wait gives up. *)
Definition never_healthy : Provider :=
  mkProvider
    (fun _ rq =>
       match rq with
       | DescribeAutoScalingGroups _ _ => Returned (PGroups [web_asg])
       | WaitInstanceStatusOk _ _ _ _ => Raised (WaiterError "Max attempts exceeded")
       | _ => Returned PNone
       end)
    no_latency.

(** No group under the name, and every call takes one second. *)
Definition no_such_group_slow : Provider :=
  mkProvider (respond no_such_group) (fun _ _ => 1%N).

(** ** Observations on logs *)

(** [h] is the log [l] with further events on top. *)
Definition extends (h l : list event) : Prop := exists new, h = new ++ l.

(** The members [get_groups] is specified to report for a group. *)
Definition in_service (i : asg_instance) : bool :=
  (LifecycleState i =? "InService")%string.

(** The groups of the newest answered group description in a log. *)
Fixpoint last_fetch (l : list event) : option (list asg_group) :=
  match l with
  | [] => None
  | EvCall (DescribeAutoScalingGroups _ _) rs :: _ =>
      match rs with
      | Returned (PGroups gs) => Some gs
      | _ => None
      end
  | _ :: pre => last_fetch pre
  end.

(** Some group of [gs] has exactly the in-service members [ids], as many
    as its desired capacity. *)
Definition group_at_capacity (ids : list string) (gs : list asg_group) : Prop :=
  exists g, In g gs /\ map InstanceId (filter in_service (Instances g)) = ids
            /\ len ids = DesiredCapacity g.

(** Every health-check wait of the log was started on the members of a
    group that the newest group description before it showed at its
    desired capacity, and so was every report of healthy instances, the
    last thing [wait_for_running] does before its [return] of line 131. *)
Fixpoint health_waits_justified (l : list event) : Prop :=
  match l with
  | [] => True
  | EvCall (WaitInstanceStatusOk _ ids _ _) _ :: pre =>
      (exists gs, last_fetch pre = Some gs /\ group_at_capacity ids gs)
      /\ health_waits_justified pre
  | EvPrint (MsgFoundHealthy n) :: pre =>
      (exists gs ids, last_fetch pre = Some gs /\ group_at_capacity ids gs
                      /\ length ids = n)
      /\ health_waits_justified pre
  | _ :: pre => health_waits_justified pre
  end.

Definition is_health_wait (ev : event) : bool :=
  match ev with
  | EvCall (WaitInstanceStatusOk _ _ _ _) _ => true
  | _ => false
  end.

(** The first thing [wait_for_running] does is to print this line. *)
Definition is_wait_start (ev : event) : bool :=
  match ev with
  | EvPrint (MsgWaitingNew _) => true
  | _ => false
  end.

Definition is_terminate (ev : event) : bool :=
  match ev with
  | EvCall (TerminateInstances _ _) _ => true
  | _ => false
  end.


(** [needle] occurs in [s]. *)
Definition names (s needle : string) : Prop :=
  exists before after, s = (before ++ needle ++ after)%string.

(** The world after [print m]. *)
Definition after_print (m : msg) (w : World) : World :=
  mkWorld (clock w) (EvPrint m :: log w).

(** A listing request for the cluster that carries no continuation token. *)
Definition is_first_page_request (region cluster : string) (ev : event) : Prop :=
  exists rs, ev = EvCall (ListContainerInstances region cluster None) rs.

(** What a computation adds to the world: events that all satisfy [P], on
    top of the log it started from, and no step back of the clock. *)
Definition emits {A} (P : event -> Prop) (m : M A) : Prop :=
  forall w r w',
    m w = (r, w') ->
    clock w <= clock w'
    /\ exists new, log w' = new ++ log w /\ Forall P new.




(** Read on a log in the order of time: every sleep lasts 30 seconds and
    comes after a reading of the running-task count, the latest of which
    was not zero.  [last] is the latest reading so far. *)
Fixpoint sleeps_only_while_tasks_run (last : option Z) (trace : list event) : bool :=
  match trace with
  | [] => true
  | EvSleep seconds :: rest =>
      match last with
      | Some n => negb (n =? 0) && (seconds =? 30)
                  && sleeps_only_while_tasks_run last rest
      | None => false
      end
  | EvCall (DescribeContainerInstances _ _ _) (Returned (PContainers (ci :: _))) :: rest =>
      sleeps_only_while_tasks_run (Some (runningTasksCount ci)) rest
  | _ :: rest => sleeps_only_while_tasks_run last rest
  end.



Definition is_drain_timeout (ev : event) : bool :=
  match ev with
  | EvPrint MsgDrainTimedOut => true
  | _ => false
  end.

(** ** Footprints: the events a function may add to the log *)

(** What [drain_instance] does for a cluster: tokenless listings,
    descriptions and DRAINING updates of container instances of that
    cluster in that region, sleeps of 30 seconds, and its two prints. *)
Definition drain_footprint (region cluster : string) (ev : event) : Prop :=
  match ev with
  | EvCall (ListContainerInstances r c None) _ => r = region /\ c = cluster
  | EvCall (DescribeContainerInstances r c _) _ => r = region /\ c = cluster
  | EvCall (UpdateContainerInstancesState r c _ s) _ =>
      r = region /\ c = cluster /\ s = "DRAINING"
  | EvSleep seconds => seconds = 30
  | EvPrint (MsgActiveTasks _) => True
  | EvPrint MsgDrainTimedOut => True
  | _ => False
  end.

(** What [wait_for_running] does for a group: descriptions of that group,
    health-check waits of 100 attempts 15 seconds apart, sleeps of 30
    seconds, and its four prints. *)
Definition wait_footprint (asg_name region : string) (ev : event) : Prop :=
  match ev with
  | EvCall (DescribeAutoScalingGroups r names) _ => r = region /\ names = [asg_name]
  | EvCall (WaitInstanceStatusOk r _ attempts delay) _ =>
      r = region /\ attempts = 100 /\ delay = 15
  | EvSleep seconds => seconds = 30
  | EvPrint (MsgWaitingNew n) => n = asg_name
  | EvPrint (MsgFoundRunning _ _) => True
  | EvPrint (MsgWaitingHealthy _) => True
  | EvPrint (MsgFoundHealthy _) => True
  | _ => False
  end.

(** What the [try] statement of [restart_all] does for one instance. *)
Definition termination_footprint (region instance_id : string) (ev : event) : Prop :=
  match ev with
  | EvCall (TerminateInstances r ids) _ => r = region /\ ids = [instance_id]
  | EvCall (WaitInstanceTerminated r ids) _ => r = region /\ ids = [instance_id]
  | EvCall (DescribeInstances r ids) _ => r = region /\ ids = [instance_id]
  | EvSleep seconds => seconds = 10
  | EvPrint (MsgTerminating i) => i = instance_id
  | EvPrint (MsgTerminated i) => i = instance_id
  | EvPrint (MsgPPrint _) => True
  | _ => False
  end.

(** The progress lines of [restart_all] itself. *)
Definition progress_print (ev : event) : Prop :=
  match ev with
  | EvPrint MsgSep => True
  | EvPrint (MsgActiveInstances _) => True
  | EvPrint (MsgDraining _) => True
  | EvPrint (MsgDrained _) => True
  | EvPrint (MsgCompleted _ _) => True
  | _ => False
  end.

(** What [restart_all] does: the three footprints above, the draining one
    only for a cluster name that counts as true, and its progress lines. *)
Definition rotation_footprint (asg_name region : string) (ecs_cluster : option string)
    (ev : event) : Prop :=
  wait_footprint asg_name region ev
  \/ (exists instance_id, termination_footprint region instance_id ev)
  \/ (exists cluster, ecs_cluster = Some cluster /\ cluster <> ""
                      /\ drain_footprint region cluster ev)
  \/ progress_print ev.

(** A request to the container service. *)
Definition is_ecs_call (ev : event) : bool :=
  match ev with
  | EvCall (ListContainerInstances _ _ _) _ => true
  | EvCall (DescribeContainerInstances _ _ _) _ => true
  | EvCall (UpdateContainerInstancesState _ _ _ _) _ => true
  | _ => false
  end.

(** A request that changes something at the provider. *)
Definition is_mutation (ev : event) : bool :=
  match ev with
  | EvCall (UpdateContainerInstancesState _ _ _ _) _ => true
  | EvCall (TerminateInstances _ _) _ => true
  | _ => false
  end.

Definition is_update (ev : event) : bool :=
  match ev with
  | EvCall (UpdateContainerInstancesState _ _ _ _) _ => true
  | _ => false
  end.

(** ** Readings of a trace, oldest event first *)

(** The instance ids of the termination requests, in the order sent. *)
Fixpoint termination_requests (trace : list event) : list string :=
  match trace with
  | [] => []
  | EvCall (TerminateInstances _ ids) _ :: rest => ids ++ termination_requests rest
  | _ :: rest => termination_requests rest
  end.

(** The container instance names of the listing answers, in the order
    received. *)
Fixpoint pages_received (trace : list event) : list string :=
  match trace with
  | [] => []
  | EvCall (ListContainerInstances _ _ _) (Returned (PList arns _)) :: rest =>
      arns ++ pages_received rest
  | _ :: rest => pages_received rest
  end.

Definition no_terminate (ev : event) : Prop := is_terminate ev = false.

Definition is_prefix {A} (xs ys : list A) : Prop := exists rest, ys = xs ++ rest.

(** On a log, newest event first: every wait for a termination comes right
    after a sleep of 10 seconds, itself right after an answered
    termination request for the same instances in the same region. *)
Fixpoint termination_waits_after_grace (l : list event) : Prop :=
  match l with
  | [] => True
  | EvCall (WaitInstanceTerminated r ids) _ :: pre =>
      (exists p pre',
          pre = EvSleep 10 :: EvCall (TerminateInstances r ids) (Returned p) :: pre')
      /\ termination_waits_after_grace pre
  | _ :: pre => termination_waits_after_grace pre
  end.

Definition is_termination_wait (ev : event) : bool :=
  match ev with
  | EvCall (WaitInstanceTerminated _ _) _ => true
  | _ => false
  end.

(** What a computation has added to the log when it ends normally. *)
Definition on_success {A} (P : event -> Prop) (m : M A) : Prop :=
  forall w a w',
    m w = (Ok a, w') ->
    exists new, log w' = new ++ log w /\ Forall P new.

(** Not a provider call that raised. *)
Definition answered (ev : event) : Prop :=
  match ev with
  | EvCall _ (Raised _) => False
  | _ => True
  end.

(** Not a provider call that raised, unless it is one of the two calls of
    the [try] statement of [restart_all]. *)
Definition answered_outside_try (ev : event) : Prop :=
  match ev with
  | EvCall (TerminateInstances _ _) (Raised _) => True
  | EvCall (WaitInstanceTerminated _ _) (Raised _) => True
  | EvCall _ (Raised _) => False
  | _ => True
  end.

(** A computation under which [termination_waits_after_grace] stays true
    of the log. *)
Definition keeps_grace {A} (m : M A) : Prop :=
  forall w r w',
    m w = (r, w') ->
    termination_waits_after_grace (log w) ->
    termination_waits_after_grace (log w').

(** ** Stepping lemmas *)

Section Steps.

Variable aws : Provider.

Lemma bind_Ok {A B} (m : M A) (k : A -> M B) w a w' :
  m w = (Ok a, w') -> bind m k w = k a w'.
Proof. intros H. unfold bind. now rewrite H. Qed.

Lemma bind_Raise {A B} (m : M A) (k : A -> M B) w e w' :
  m w = (Raise e, w') -> bind m k w = (Raise e, w').
Proof. intros H. unfold bind. now rewrite H. Qed.

Lemma bind_OutOfFuel {A B} (m : M A) (k : A -> M B) w w' :
  m w = (OutOfFuel, w') -> bind m k w = (OutOfFuel, w').
Proof. intros H. unfold bind. now rewrite H. Qed.

Lemma call_Returned rq w p :
  respond aws (log w) rq = Returned p ->
  call aws rq w = (Ok p, after_call aws rq w).
Proof. intros H. unfold call. now rewrite H. Qed.

Lemma call_Raised rq w e :
  respond aws (log w) rq = Raised e ->
  call aws rq w = (Raise e, after_call aws rq w).
Proof. intros H. unfold call. now rewrite H. Qed.

Lemma print_run m w : print m w = (Ok tt, after_print m w).
Proof. reflexivity. Qed.

Lemma in_service_ids_acc (l : list asg_instance) (acc : list string) :
  fold_left
    (fun ids instance =>
       if (LifecycleState instance =? "InService")%string
       then ids ++ [InstanceId instance]
       else ids) l acc
  = acc ++ map InstanceId (filter in_service l).
Proof.
  revert acc. induction l as [|i l IH]; intros acc; simpl.
  - now rewrite app_nil_r.
  - rewrite IH. unfold in_service at 2.
    destruct (LifecycleState i =? "InService")%string; simpl.
    + now rewrite <- app_assoc.
    + reflexivity.
Qed.

Lemma in_service_ids_filter (g : asg_group) :
  in_service_ids g = map InstanceId (filter in_service (Instances g)).
Proof. unfold in_service_ids. now rewrite in_service_ids_acc. Qed.

Lemma group_info_acc (gs : list asg_group) (acc : list (Z * list string)) :
  fold_left
    (fun group_info group =>
       let ids := in_service_ids group in
       let info := (DesiredCapacity group, ids) in
       group_info ++ [info]) gs acc
  = acc ++ map (fun g => (DesiredCapacity g, in_service_ids g)) gs.
Proof.
  revert acc. induction gs as [|g gs IH]; intros acc; simpl.
  - now rewrite app_nil_r.
  - rewrite IH. now rewrite <- app_assoc.
Qed.

Lemma get_groups_Returned asg_name region w gs :
  respond aws (log w) (DescribeAutoScalingGroups region [asg_name])
    = Returned (PGroups gs) ->
  get_groups aws asg_name region w
    = (Ok (map (fun g => (DesiredCapacity g, in_service_ids g)) gs),
       after_call aws (DescribeAutoScalingGroups region [asg_name]) w).
Proof.
  intros H. unfold get_groups.
  rewrite (bind_Ok _ _ _ _ _ (call_Returned _ _ _ H)).
  simpl. unfold bind, ret. simpl. now rewrite group_info_acc.
Qed.

End Steps.

(** ** Group Inspector *)

(** C9: for every group of the provider's answer, [get_groups] reports the
    desired capacity unchanged and, as member ids, exactly the ids of the
    instances whose lifecycle state is [InService], in the order given;
    an id is reported only for such an instance. *)
Theorem get_groups_reports_in_service_members :
  forall aws asg_name region w gs,
    respond aws (log w) (DescribeAutoScalingGroups region [asg_name])
      = Returned (PGroups gs) ->
    exists group_info,
      get_groups aws asg_name region w
        = (Ok group_info,
           after_call aws (DescribeAutoScalingGroups region [asg_name]) w)
      /\ Forall2
           (fun g info =>
              fst info = DesiredCapacity g
              /\ snd info = map InstanceId (filter in_service (Instances g))
              /\ (forall id, In id (snd info) <->
                    exists i, In i (Instances g) /\ InstanceId i = id
                              /\ LifecycleState i = "InService"))
           gs group_info.
Proof.
  intros aws asg_name region w gs H.
  eexists. split; [apply get_groups_Returned; exact H|].
  clear H. induction gs as [|g gs IH]; simpl; constructor; [|exact IH].
  simpl. rewrite in_service_ids_filter. repeat split.
  - intros Hin. apply in_map_iff in Hin. destruct Hin as [i [Hid Hi]].
    apply filter_In in Hi. destruct Hi as [Hi Hs].
    exists i. repeat split; auto. now apply String.eqb_eq.
  - intros [i [Hi [Hid Hs]]]. apply in_map_iff. exists i. split; auto.
    apply filter_In. split; auto. now apply String.eqb_eq.
Qed.

Lemma get_groups_reports_in_service_members_witness :
  exists group_info,
    get_groups flaky_wait "web-asg" "us-east-1" w0
      = (Ok group_info,
         after_call flaky_wait (DescribeAutoScalingGroups "us-east-1" ["web-asg"]) w0)
    /\ Forall2
         (fun g info =>
            fst info = DesiredCapacity g
            /\ snd info = map InstanceId (filter in_service (Instances g))
            /\ (forall id, In id (snd info) <->
                  exists i, In i (Instances g) /\ InstanceId i = id
                            /\ LifecycleState i = "InService"))
         [web_asg] group_info.
Proof.
  apply (get_groups_reports_in_service_members flaky_wait "web-asg" "us-east-1" w0).
  reflexivity.
Defined.

(** C8, as stated, fails: asked for a group the provider does not know,
    [get_groups] returns the empty list and raises nothing. *)
Lemma get_groups_missing_group_returns_empty :
  respond no_such_group (log w0) (DescribeAutoScalingGroups "us-east-1" ["web-asg"])
    = Returned (PGroups [])
  /\ get_groups no_such_group "web-asg" "us-east-1" w0
     = (Ok [], after_call no_such_group
                 (DescribeAutoScalingGroups "us-east-1" ["web-asg"]) w0)
  /\ ~ (exists e w', get_groups no_such_group "web-asg" "us-east-1" w0 = (Raise e, w')).
Proof.
  split; [reflexivity|]. split; [reflexivity|].
  intros [e [w' H]]. discriminate H.
Qed.

(** C8, amended: when the provider's answer lists no group, [get_groups]
    returns the empty list without error; it raises exactly when the
    provider call raises, and then that same exception, or when the answer
    lacks the [AutoScalingGroups] key, and then [KeyError]. *)
Theorem get_groups_raises_only_with_provider :
  forall aws asg_name region w,
    let rq := DescribeAutoScalingGroups region [asg_name] in
    (respond aws (log w) rq = Returned (PGroups []) ->
       get_groups aws asg_name region w = (Ok [], after_call aws rq w))
    /\ (forall e, respond aws (log w) rq = Raised e ->
          get_groups aws asg_name region w = (Raise e, after_call aws rq w))
    /\ (forall e w', get_groups aws asg_name region w = (Raise e, w') ->
          respond aws (log w) rq = Raised e
          \/ (e = KeyError "AutoScalingGroups"
              /\ exists p, respond aws (log w) rq = Returned p
                           /\ forall gs, p <> PGroups gs)).
Proof.
  intros aws asg_name region w rq. repeat split.
  - intros H. now rewrite (get_groups_Returned aws _ _ _ _ H).
  - intros e H. unfold get_groups.
    now rewrite (bind_Raise _ _ _ _ _ (call_Raised aws _ _ _ H)).
  - intros e w' H. unfold get_groups, bind, call in H. fold rq in H.
    destruct (respond aws (log w) rq) as [p|e0] eqn:E.
    + right. destruct p; simpl in H; try discriminate H;
        unfold raise in H; inversion H; subst;
        (split; [reflexivity|]); eexists; (split; [reflexivity|]);
        intros gs Hgs; discriminate Hgs.
    + left. inversion H. reflexivity.
Qed.

Lemma get_groups_raises_only_with_provider_witness :
  get_groups no_such_group "web-asg" "us-east-1" w0
  = (Ok [], after_call no_such_group
              (DescribeAutoScalingGroups "us-east-1" ["web-asg"]) w0).
Proof.
  apply (get_groups_raises_only_with_provider no_such_group "web-asg" "us-east-1" w0).
  reflexivity.
Defined.

(** ** First-element lookups *)

Section Lookups.

Variable aws : Provider.

Lemma get_running_tasks_Returned region cluster arn w cis :
  respond aws (log w) (DescribeContainerInstances region cluster [arn])
    = Returned (PContainers cis) ->
  get_running_tasks aws region cluster arn w
  = (match cis with
     | [] => Raise IndexError
     | ci :: _ => Ok (runningTasksCount ci)
     end,
     after_call aws (DescribeContainerInstances region cluster [arn]) w).
Proof.
  intros H. unfold get_running_tasks.
  rewrite (bind_Ok _ _ _ _ _ (call_Returned aws _ _ _ H)).
  destruct cis; reflexivity.
Qed.

Lemma terminate_handler_Returned region id e w rs :
  respond aws (log w) (DescribeInstances region [id]) = Returned (PReservations rs) ->
  terminate_handler aws region id e w
  = (match rs with
     | [] => Raise IndexError
     | r0 :: _ =>
         match Reservation_Instances r0 with
         | [] => Raise IndexError
         | i0 :: _ =>
             if (State_Name i0 =? "terminated")%string then Ok false else Raise e
         end
     end,
     after_print (MsgPPrint (PReservations rs))
       (after_call aws (DescribeInstances region [id]) w)).
Proof.
  intros H. unfold terminate_handler.
  rewrite (bind_Ok _ _ _ _ _ (call_Returned aws _ _ _ H)).
  destruct rs as [|r0 rs']; [reflexivity|].
  destruct r0 as [is0]. destruct is0 as [|i0 is0']; [reflexivity|].
  unfold bind, print, get_Reservations, index0, ret, raise, after_print. simpl.
  destruct (State_Name i0 =? "terminated")%string; reflexivity.
Qed.

Lemma terminate_step_Raise region id w e w1 :
  terminate_and_wait aws region id w = (Raise e, w1) ->
  terminate_step aws region id w = terminate_handler aws region id e w1.
Proof. intros H. unfold terminate_step, try_except. now rewrite H. Qed.

End Lookups.

(** C10: [get_running_tasks] and the handler of the termination wait read
    element 0 of the provider's record lists without a test.  With a
    non-empty list the read gives the first record; with an empty list it
    raises IndexError, and in the handler that IndexError, not the
    exception caught, leaves the [try] statement. *)
Theorem first_record_reads_need_nonempty_answers :
  forall aws region,
    (forall cluster arn w cis,
        respond aws (log w) (DescribeContainerInstances region cluster [arn])
          = Returned (PContainers cis) ->
        let w' := after_call aws (DescribeContainerInstances region cluster [arn]) w in
        (cis = [] -> get_running_tasks aws region cluster arn w = (Raise IndexError, w'))
        /\ (forall ci rest, cis = ci :: rest ->
              get_running_tasks aws region cluster arn w = (Ok (runningTasksCount ci), w')))
    /\ (forall id w e w1 rs,
          terminate_and_wait aws region id w = (Raise e, w1) ->
          respond aws (log w1) (DescribeInstances region [id])
            = Returned (PReservations rs) ->
          let w2 := after_print (MsgPPrint (PReservations rs))
                      (after_call aws (DescribeInstances region [id]) w1) in
          (rs = [] -> terminate_step aws region id w = (Raise IndexError, w2))
          /\ (forall rest, rs = mk_reservation [] :: rest ->
                terminate_step aws region id w = (Raise IndexError, w2))
          /\ (forall i0 is0 rest, rs = mk_reservation (i0 :: is0) :: rest ->
                terminate_step aws region id w
                = (if (State_Name i0 =? "terminated")%string then Ok false else Raise e,
                   w2))).
Proof.
  intros aws region. split.
  - intros cluster arn w cis H w'. subst w'.
    rewrite (get_running_tasks_Returned aws _ _ _ _ _ H).
    split; [intros ->; reflexivity | intros ci rest ->; reflexivity].
  - intros id w e w1 rs Hbody H w2. subst w2.
    rewrite (terminate_step_Raise aws _ _ _ _ _ Hbody).
    rewrite (terminate_handler_Returned aws _ _ _ _ _ H).
    repeat split.
    + intros ->. reflexivity.
    + intros rest ->. reflexivity.
    + intros i0 is0 rest ->. simpl.
      destruct (State_Name i0 =? "terminated")%string; reflexivity.
Qed.

Lemma first_record_reads_need_nonempty_answers_witness :
  get_running_tasks vanished_instance "us-east-1" "cluster" "arn-1" w0
  = (Raise IndexError,
     after_call vanished_instance
       (DescribeContainerInstances "us-east-1" "cluster" ["arn-1"]) w0)
  /\ fst (terminate_step vanished_instance "us-east-1" "i-1" w0) = Raise IndexError
  /\ fst (restart_all vanished_instance 30 "web-asg" "us-east-1" None w0)
     = Raise IndexError.
Proof.
  pose proof (first_record_reads_need_nonempty_answers vanished_instance "us-east-1")
    as [Htasks Hstep].
  split; [|split].
  - apply (Htasks "cluster" "arn-1" w0 []); reflexivity.
  - destruct (Hstep "i-1" w0 (WaiterError "Max attempts exceeded")
                (snd (terminate_and_wait vanished_instance "us-east-1" "i-1" w0)) [])
      as [Hempty _]; [reflexivity | reflexivity |].
    rewrite (Hempty eq_refl). reflexivity.
  - reflexivity.
Defined.

(** ** Termination step *)

(** C4: when the body of the [try] statement raises for a member and the
    re-queried state is [terminated], the step ends without exception and
    the member loop goes on with the next member; for any other state the
    exception caught is raised again and ends the member loop, so the run,
    at once. *)
Theorem termination_wait_failure_rechecks_state :
  forall aws fuel asg_name region ecs_cluster total idx id rest
         w w0 e w1 i0 is0 rs,
    drain_step aws fuel region ecs_cluster id w = (Ok tt, w0) ->
    terminate_and_wait aws region id w0 = (Raise e, w1) ->
    respond aws (log w1) (DescribeInstances region [id])
      = Returned (PReservations (mk_reservation (i0 :: is0) :: rs)) ->
    let w2 := after_print (MsgPPrint (PReservations (mk_reservation (i0 :: is0) :: rs)))
                (after_call aws (DescribeInstances region [id]) w1) in
    let body := restart_instance aws fuel asg_name region ecs_cluster total in
    (State_Name i0 = "terminated" ->
       terminate_step aws region id w0 = (Ok false, w2)
       /\ for_loop ((idx, id) :: rest) body w = for_loop rest body w2)
    /\ (State_Name i0 <> "terminated" ->
          terminate_step aws region id w0 = (Raise e, w2)
          /\ for_loop ((idx, id) :: rest) body w = (Raise e, w2)).
Proof.
  intros aws fuel asg_name region ecs_cluster total idx id rest
         w w0 e w1 i0 is0 rs Hdrain Hbody Hdesc w2 body.
  assert (Hstep : terminate_step aws region id w0
                  = (if (State_Name i0 =? "terminated")%string
                     then Ok false else Raise e, w2)).
  { rewrite (terminate_step_Raise aws _ _ _ _ _ Hbody).
    now rewrite (terminate_handler_Returned aws _ _ _ _ _ Hdesc). }
  split; intros Hst.
  - apply String.eqb_eq in Hst. rewrite Hst in Hstep. split; [exact Hstep|].
    assert (Hinst : body (idx, id) w = (Ok None, w2)).
    { unfold body, restart_instance.
      rewrite (bind_Ok _ _ _ _ _ Hdrain).
      now rewrite (bind_Ok _ _ _ _ _ Hstep). }
    change (for_loop ((idx, id) :: rest) body w)
      with (bind (body (idx, id))
              (fun r => match r with
                        | Some v => ret (Some v)
                        | None => for_loop rest body
                        end) w).
    now rewrite (bind_Ok _ _ _ _ _ Hinst).
  - apply String.eqb_neq in Hst. rewrite Hst in Hstep. split; [exact Hstep|].
    assert (Hinst : body (idx, id) w = (Raise e, w2)).
    { unfold body, restart_instance.
      rewrite (bind_Ok _ _ _ _ _ Hdrain).
      now rewrite (bind_Raise _ _ _ _ _ Hstep). }
    change (for_loop ((idx, id) :: rest) body w)
      with (bind (body (idx, id))
              (fun r => match r with
                        | Some v => ret (Some v)
                        | None => for_loop rest body
                        end) w).
    now rewrite (bind_Raise _ _ _ _ _ Hinst).
Qed.

Lemma termination_wait_failure_rechecks_state_witness :
  (terminate_step flaky_wait "us-east-1" "i-1" (after_print MsgSep w0)
   = (Ok false,
      after_print
        (MsgPPrint (PReservations [mk_reservation [mk_ec2_instance "terminated"]]))
        (after_call flaky_wait (DescribeInstances "us-east-1" ["i-1"])
           (snd (terminate_and_wait flaky_wait "us-east-1" "i-1"
                   (after_print MsgSep w0))))))
  /\ fst (for_loop [(0%nat, "i-1"); (1%nat, "i-2")]
            (restart_instance stuck_instance 30 "web-asg" "us-east-1" None 2) w0)
     = Raise (WaiterError "Max attempts exceeded").
Proof.
  split.
  - refine (proj1 (proj1 (termination_wait_failure_rechecks_state
              flaky_wait 30 "web-asg" "us-east-1" None 2 0 "i-1" [(1%nat, "i-2")]
              w0 (after_print MsgSep w0) (WaiterError "Max attempts exceeded")
              (snd (terminate_and_wait flaky_wait "us-east-1" "i-1"
                      (after_print MsgSep w0)))
              (mk_ec2_instance "terminated") [] []
              eq_refl eq_refl eq_refl) eq_refl)).
  - rewrite (proj2 (proj2 (termination_wait_failure_rechecks_state
              stuck_instance 30 "web-asg" "us-east-1" None 2 0 "i-1" [(1%nat, "i-2")]
              w0 (after_print MsgSep w0) (WaiterError "Max attempts exceeded")
              (snd (terminate_and_wait stuck_instance "us-east-1" "i-1"
                      (after_print MsgSep w0)))
              (mk_ec2_instance "shutting-down") [] []
              eq_refl eq_refl eq_refl)
              ltac:(simpl; discriminate))).
    reflexivity.
Defined.

(** ** What computations add to the log *)

Section Emits.

Variable aws : Provider.

Lemma emits_ret {A} P (a : A) : emits P (ret a).
Proof.
  intros w r w' H. inversion H; subst. split; [lia|]. now exists [].
Qed.

Lemma emits_raise {A} P e : emits P (@raise A e).
Proof.
  intros w r w' H. inversion H; subst. split; [lia|]. now exists [].
Qed.

Lemma emits_out_of_fuel {A} P : emits P (@out_of_fuel A).
Proof.
  intros w r w' H. inversion H; subst. split; [lia|]. now exists [].
Qed.

Lemma emits_time_time P : emits P time_time.
Proof.
  intros w r w' H. inversion H; subst. split; [lia|]. now exists [].
Qed.

Lemma emits_bind {A B} P (m : M A) (k : A -> M B) :
  emits P m -> (forall a, emits P (k a)) -> emits P (bind m k).
Proof.
  intros Hm Hk w r w' H. unfold bind in H.
  destruct (m w) as [[a|e|] w1] eqn:E.
  - destruct (Hm _ _ _ E) as [Hc1 [n1 [Hl1 Hf1]]].
    destruct (Hk a _ _ _ H) as [Hc2 [n2 [Hl2 Hf2]]].
    split; [lia|]. exists (n2 ++ n1). split.
    + now rewrite Hl2, Hl1, app_assoc.
    + apply Forall_app. now split.
  - inversion H; subst. exact (Hm _ _ _ E).
  - inversion H; subst. exact (Hm _ _ _ E).
Qed.

Lemma emits_call P rq : (forall rs, P (EvCall rq rs)) -> emits P (call aws rq).
Proof.
  intros HP w r w' H. unfold call in H.
  assert (w' = after_call aws rq w)
    by (destruct (respond aws (log w) rq); now inversion H).
  subst w'. unfold after_call. simpl. split; [lia|].
  exists [EvCall rq (respond aws (log w) rq)]. split; [reflexivity|].
  constructor; [apply HP | constructor].
Qed.

Lemma emits_print P m : P (EvPrint m) -> emits P (print m).
Proof.
  intros HP w r w' H. inversion H; subst. simpl. split; [lia|].
  exists [EvPrint m]. split; [reflexivity|]. now constructor.
Qed.

Lemma emits_sleep P n : 0 <= n -> P (EvSleep n) -> emits P (sleep n).
Proof.
  intros Hn HP w r w' H. inversion H; subst. simpl. split; [lia|].
  exists [EvSleep n]. split; [reflexivity|]. now constructor.
Qed.

Lemma emits_for_loop {A R} P (xs : list A) (body : A -> M (option R)) :
  (forall x, emits P (body x)) -> emits P (for_loop xs body).
Proof.
  intros Hb. induction xs as [|x xs IH]; simpl.
  - apply emits_ret.
  - apply emits_bind; [apply Hb|]. intros [v|]; [apply emits_ret | exact IH].
Qed.

Lemma emits_get_containerInstanceArns P p : emits P (get_containerInstanceArns p).
Proof. destruct p; simpl; first [apply emits_ret | apply emits_raise]. Qed.

Lemma list_more_emits fuel region cluster response acc :
  emits (is_first_page_request region cluster)
        (list_more aws fuel region cluster response acc).
Proof.
  revert response acc. induction fuel as [|fuel IH]; intros response acc; simpl;
    destruct (truthy (get_nextToken response));
    try apply emits_ret; try apply emits_out_of_fuel.
  apply emits_bind; [apply emits_call; intros rs; now exists rs|].
  intros p. apply emits_bind; [apply emits_get_containerInstanceArns|].
  intros arns. apply IH.
Qed.

Lemma list_container_instances_emits fuel region cluster :
  emits (is_first_page_request region cluster)
        (list_container_instances aws fuel region cluster).
Proof.
  unfold list_container_instances.
  apply emits_bind; [apply emits_call; intros rs; now exists rs|].
  intros p. apply emits_bind; [apply emits_get_containerInstanceArns|].
  intros arns. apply list_more_emits.
Qed.

End Emits.

(** ** Workload Drainer: listing and resolution *)

Lemma two_pages_list_more_runs_out fuel region cluster acc w :
  exists w',
    list_more two_pages fuel region cluster (PList ["arn-1"] (Some "page-2")) acc w
    = (OutOfFuel, w').
Proof.
  revert acc w. induction fuel as [|fuel IH]; intros acc w.
  - now exists w.
  - cbn [list_more get_nextToken truthy String.eqb negb].
    rewrite (bind_Ok _ _ _ _ _
               (call_Returned two_pages
                  (ListContainerInstances region cluster None) w
                  (PList ["arn-1"] (Some "page-2")) eq_refl)).
    cbn [get_containerInstanceArns].
    unfold bind at 1, ret.
    apply IH.
Qed.

(** C2, evaluated on the code: on a cluster of two pages with the record
    of [i-2] on the second, [drain_instance] never resolves [i-2].  The
    second page exists and is served to a request with the token, but the
    loop sends the tokenless request again for ever: with any fuel the run
    is still in the listing loop, and every request it sent is the
    first-page request. *)
Theorem listing_never_reaches_second_page :
  (forall h, respond two_pages h (ListContainerInstances "us-east-1" "cluster" (Some "page-2"))
             = Returned (PList ["arn-2"] None))
  /\ (forall h, respond two_pages h
                  (DescribeContainerInstances "us-east-1" "cluster" ["arn-1"; "arn-2"])
                = Returned (PContainers cluster_records))
  /\ forall fuel w,
       exists w' new,
         drain_instance two_pages fuel "i-2" "cluster" "us-east-1" w = (OutOfFuel, w')
         /\ log w' = new ++ log w
         /\ Forall (is_first_page_request "us-east-1" "cluster") new.
Proof.
  split; [reflexivity|]. split; [reflexivity|].
  intros fuel w.
  destruct (list_container_instances two_pages fuel "us-east-1" "cluster" w)
    as [r w'] eqn:E.
  assert (Hr : r = OutOfFuel).
  { unfold list_container_instances in E.
    rewrite (bind_Ok _ _ _ _ _
               (call_Returned two_pages
                  (ListContainerInstances "us-east-1" "cluster" None) w
                  (PList ["arn-1"] (Some "page-2")) eq_refl)) in E.
    cbn [get_containerInstanceArns] in E. unfold bind at 1, ret in E.
    destruct (two_pages_list_more_runs_out fuel "us-east-1" "cluster" ["arn-1"]
                (after_call two_pages
                   (ListContainerInstances "us-east-1" "cluster" None) w))
      as [w'' Hw].
    rewrite Hw in E. now inversion E. }
  subst r.
  destruct (list_container_instances_emits two_pages fuel "us-east-1" "cluster" _ _ _ E)
    as [_ [new [Hl Hf]]].
  exists w', new. split; [|split; assumption].
  unfold drain_instance. now rewrite (bind_OutOfFuel _ _ _ _ E).
Qed.

Lemma string_app_assoc (a b c : string) : ((a ++ b) ++ c = a ++ (b ++ c))%string.
Proof. induction a as [|x a IH]; simpl; [reflexivity | now rewrite IH]. Qed.

Lemma for_loop_no_match fuel aws region cluster id cis w :
  (forall ci, In ci cis -> ec2InstanceId ci <> id) ->
  for_loop cis
    (fun instance =>
       if (ec2InstanceId instance =? id)%string
       then bind (drain_found aws fuel region cluster instance) (fun _ => ret (Some tt))
       else ret None) w
  = (Ok None, w).
Proof.
  induction cis as [|ci cis IH]; intros H; [reflexivity|].
  cbn [for_loop].
  assert (Hne : (ec2InstanceId ci =? id)%string = false)
    by (apply String.eqb_neq, H; now left).
  rewrite Hne. unfold bind at 1, ret at 1.
  apply IH. intros ci' Hin. apply H. now right.
Qed.

(** Resolution failure, given that the listing has finished: when no
    record of the cluster carries the node id, [drain_instance] raises an
    exception whose message names the node id, the cluster and the
    region; in the rotation the exception leaves the member loop at once,
    and no termination request was sent since the member's turn began. *)
Theorem unresolved_node_aborts_before_terminate :
  forall aws fuel asg_name region cluster total idx id rest w arns w1 cis,
    cluster <> "" ->
    let wd := after_print (MsgDraining id) (after_print MsgSep w) in
    list_container_instances aws fuel region cluster wd = (Ok arns, w1) ->
    respond aws (log w1) (DescribeContainerInstances region cluster arns)
      = Returned (PContainers cis) ->
    (forall ci, In ci cis -> ec2InstanceId ci <> id) ->
    let message :=
      ("Could not find " ++ id ++ " in " ++ cluster ++ " (" ++ region ++ ")")%string in
    let w2 := after_call aws (DescribeContainerInstances region cluster arns) w1 in
    drain_instance aws fuel id cluster region wd = (Raise (PyException message), w2)
    /\ names message id /\ names message cluster /\ names message region
    /\ for_loop ((idx, id) :: rest)
         (restart_instance aws fuel asg_name region (Some cluster) total) w
       = (Raise (PyException message), w2)
    /\ exists new, log w2 = new ++ log w /\ existsb is_terminate new = false.
Proof.
  intros aws fuel asg_name region cluster total idx id rest w arns w1 cis
         Hcl wd Hlist Hdesc Hnone message w2.
  assert (Hdrain : drain_instance aws fuel id cluster region wd
                   = (Raise (PyException message), w2)).
  { unfold drain_instance.
    rewrite (bind_Ok _ _ _ _ _ Hlist).
    rewrite (bind_Ok _ _ _ _ _ (call_Returned aws _ _ _ Hdesc)).
    cbn [get_containerInstances]. unfold bind at 1, ret at 1.
    rewrite (bind_Ok _ _ _ _ _ (for_loop_no_match fuel aws region cluster id cis _ Hnone)).
    reflexivity. }
  split; [exact Hdrain|].
  split; [exists "Could not find ", (" in " ++ cluster ++ " (" ++ region ++ ")")%string;
          reflexivity|].
  split; [exists ("Could not find " ++ id ++ " in ")%string, (" (" ++ region ++ ")")%string;
          unfold message; now rewrite !string_app_assoc|].
  split; [exists ("Could not find " ++ id ++ " in " ++ cluster ++ " (")%string, ")"%string;
          unfold message; now rewrite !string_app_assoc|].
  split.
  - assert (Hstep : drain_step aws fuel region (Some cluster) id w
                    = (Raise (PyException message), w2)).
    { unfold drain_step, print_sep.
      rewrite (bind_Ok _ _ _ _ _ (print_run MsgSep w)).
      assert (Ht : truthy (Some cluster) = true)
        by (simpl; apply negb_true_iff, String.eqb_neq, Hcl).
      rewrite Ht.
      rewrite (bind_Ok _ _ _ _ _ (print_run (MsgDraining id) _)). fold wd.
      now rewrite (bind_Raise _ _ _ _ _ Hdrain). }
    cbn [for_loop]. apply bind_Raise.
    unfold restart_instance. now apply bind_Raise.
  - destruct (list_container_instances_emits aws fuel region cluster _ _ _ Hlist)
      as [_ [new [Hl Hf]]].
    exists (EvCall (DescribeContainerInstances region cluster arns)
              (respond aws (log w1) (DescribeContainerInstances region cluster arns))
            :: new ++ [EvPrint (MsgDraining id); EvPrint MsgSep]).
    split.
    + unfold w2, after_call. cbn [log]. rewrite Hl. unfold wd, after_print. cbn [log].
      simpl. now rewrite <- app_assoc.
    + cbn [existsb is_terminate orb]. rewrite existsb_app. cbn.
      rewrite orb_false_r.
      clear Hl. induction new as [|ev new IH]; [reflexivity|].
      inversion Hf as [|? ? [rs Hev] Hf']; subst. cbn.
      apply IH. exact Hf'.
Qed.

Lemma unresolved_node_aborts_before_terminate_witness :
  fst (for_loop [(1%nat, "i-2")]
         (restart_instance one_page 30 "web-asg" "us-east-1" (Some "cluster") 2) w0)
  = Raise (PyException "Could not find i-2 in cluster (us-east-1)").
Proof.
  destruct (unresolved_node_aborts_before_terminate one_page 30 "web-asg" "us-east-1"
              "cluster" 2 1 "i-2" [] w0 ["arn-1"]
              (after_call one_page (ListContainerInstances "us-east-1" "cluster" None)
                 (after_print (MsgDraining "i-2") (after_print MsgSep w0)))
              [mk_container_instance "i-1" "arn-1" 0])
    as [_ [_ [_ [_ [Hloop _]]]]].
  - discriminate.
  - reflexivity.
  - reflexivity.
  - intros ci [<-|[]]. discriminate.
  - rewrite Hloop. reflexivity.
Defined.

(** On a listing whose first answer carries no continuation token the
    loop of lines 43-45 is not entered, whatever the fuel. *)
Lemma list_container_instances_one_page aws fuel region cluster w arns tok :
  respond aws (log w) (ListContainerInstances region cluster None)
    = Returned (PList arns tok) ->
  truthy tok = false ->
  list_container_instances aws fuel region cluster w
  = (Ok arns, after_call aws (ListContainerInstances region cluster None) w).
Proof.
  intros Hresp Htok. unfold list_container_instances.
  rewrite (bind_Ok _ _ _ _ _ (call_Returned aws _ _ _ Hresp)).
  cbn [get_containerInstanceArns]. unfold bind at 1, ret at 1.
  destruct fuel; cbn [list_more get_nextToken]; rewrite Htok; reflexivity.
Qed.

(** With a one-page listing the resolution failure is raised with any
    fuel: the run ends, with the exception that names the node. *)
Lemma unresolved_node_on_one_page_raises aws fuel id cluster region w arns tok cis :
  respond aws (log w) (ListContainerInstances region cluster None)
    = Returned (PList arns tok) ->
  truthy tok = false ->
  let w1 := after_call aws (ListContainerInstances region cluster None) w in
  respond aws (log w1) (DescribeContainerInstances region cluster arns)
    = Returned (PContainers cis) ->
  (forall ci, In ci cis -> ec2InstanceId ci <> id) ->
  drain_instance aws fuel id cluster region w
  = (Raise (PyException
              ("Could not find " ++ id ++ " in " ++ cluster ++ " (" ++ region ++ ")")%string),
     after_call aws (DescribeContainerInstances region cluster arns) w1).
Proof.
  intros Hresp Htok w1 Hdesc Hnone. unfold drain_instance.
  rewrite (bind_Ok _ _ _ _ _
             (list_container_instances_one_page aws fuel region cluster w arns tok
                Hresp Htok)).
  fold w1.
  rewrite (bind_Ok _ _ _ _ _ (call_Returned aws _ _ _ Hdesc)).
  cbn [get_containerInstances]. unfold bind at 1, ret at 1.
  rewrite (bind_Ok _ _ _ _ _ (for_loop_no_match fuel aws region cluster id cis _ Hnone)).
  reflexivity.
Qed.

Lemma two_pages_drain_runs_out id fuel w :
  exists w' new,
    drain_instance two_pages fuel id "cluster" "us-east-1" w = (OutOfFuel, w')
    /\ log w' = new ++ log w
    /\ Forall (is_first_page_request "us-east-1" "cluster") new.
Proof.
  destruct (list_container_instances two_pages fuel "us-east-1" "cluster" w)
    as [r w'] eqn:E.
  assert (Hr : r = OutOfFuel).
  { unfold list_container_instances in E.
    rewrite (bind_Ok _ _ _ _ _
               (call_Returned two_pages
                  (ListContainerInstances "us-east-1" "cluster" None) w
                  (PList ["arn-1"] (Some "page-2")) eq_refl)) in E.
    cbn [get_containerInstanceArns] in E. unfold bind at 1, ret in E.
    destruct (two_pages_list_more_runs_out fuel "us-east-1" "cluster" ["arn-1"]
                (after_call two_pages
                   (ListContainerInstances "us-east-1" "cluster" None) w))
      as [w'' Hw].
    rewrite Hw in E. now inversion E. }
  subst r.
  destruct (list_container_instances_emits two_pages fuel "us-east-1" "cluster" _ _ _ E)
    as [_ [new [Hl Hf]]].
  exists w', new. split; [|split; assumption].
  unfold drain_instance. now rewrite (bind_OutOfFuel _ _ _ _ E).
Qed.

(** C5, evaluated on the code: on a cluster whose listing has two pages,
    the node [i-9] is registered on neither page, yet [drain_instance]
    never raises the resolution failure: with any fuel the run is still in
    the listing loop of lines 43-45, sending the tokenless request again,
    and so is the member loop of the rotation at that node.  The
    description of the records and the search of lines 50-72 are never
    reached.  This is the defect of the listing loop again; on a one-page
    listing the failure is raised as the claim says. *)
Theorem unresolved_node_on_paged_cluster_raises_nothing :
  existsb (fun ci => (ec2InstanceId ci =? "i-9")%string) cluster_records = false
  /\ (forall fuel w,
        exists w' new,
          drain_instance two_pages fuel "i-9" "cluster" "us-east-1" w = (OutOfFuel, w')
          /\ log w' = new ++ log w
          /\ Forall (is_first_page_request "us-east-1" "cluster") new)
  /\ (forall fuel rest w,
        fst (for_loop ((0%nat, "i-9") :: rest)
               (restart_instance two_pages fuel "web-asg" "us-east-1" (Some "cluster") 1)
               w)
        = OutOfFuel)
  /\ fst (drain_instance one_page 0 "i-9" "cluster" "us-east-1" w0)
     = Raise (PyException "Could not find i-9 in cluster (us-east-1)").
Proof.
  split; [|split; [|split]].
  - reflexivity.
  - intros fuel w. apply two_pages_drain_runs_out.
  - intros fuel rest w.
    destruct (two_pages_drain_runs_out "i-9" fuel
                (after_print (MsgDraining "i-9") (after_print MsgSep w)))
      as [w' [new [Hrun _]]].
    cbn [for_loop]. unfold restart_instance, drain_step, print_sep.
    cbn [truthy String.eqb Ascii.eqb Bool.eqb negb].
    unfold bind at 1 2 3. cbn [print].
    unfold bind at 1. cbn [print].
    change (mkWorld (clock (mkWorld (clock w) (EvPrint MsgSep :: log w)))
              (EvPrint (MsgDraining "i-9") :: log (mkWorld (clock w) (EvPrint MsgSep :: log w))))
      with (after_print (MsgDraining "i-9") (after_print MsgSep w)).
    unfold bind at 1. rewrite Hrun. reflexivity.
  - reflexivity.
Qed.

(** ** Rotation Controller: the capacity wait between members *)

(** C1, evaluated on the code: with members [i-1] and [i-2], when the wait
    for the termination of [i-1] raises and [i-1] is then found
    terminated, the handler's [continue] takes the rotation to [i-2]
    without calling [wait_for_running]: the run ends normally, the
    termination request for [i-2] follows the one for [i-1], and the only
    start of a capacity wait comes after both. *)
Theorem continue_skips_capacity_wait :
  exists w,
    restart_all flaky_wait 30 "web-asg" "us-east-1" None w0 = (Ok tt, w)
    /\ filter (fun ev => is_terminate ev || is_wait_start ev) (rev (log w))
       = [EvCall (TerminateInstances "us-east-1" ["i-1"]) (Returned PNone);
          EvCall (TerminateInstances "us-east-1" ["i-2"]) (Returned PNone);
          EvPrint (MsgWaitingNew "web-asg")].
Proof. eexists. split; reflexivity. Qed.

(** ** Capacity Waiter *)

Section CapacityWaiter.

Variable aws : Provider.

Lemma wait_group_justified region gs info w r w' :
  In info (map (fun g => (DesiredCapacity g, in_service_ids g)) gs) ->
  last_fetch (log w) = Some gs ->
  health_waits_justified (log w) ->
  wait_group aws region info w = (r, w') ->
  health_waits_justified (log w')
  /\ (r = Ok None -> last_fetch (log w') = Some gs).
Proof.
  intros Hin Hfetch Hj H. destruct info as [capacity ids].
  unfold wait_group in H. unfold bind at 1, sleep at 1 in H.
  destruct (len ids =? capacity) eqn:Hlen; cbn [negb] in H.
  - unfold bind at 1, print at 1 in H. cbn [clock log] in H.
    unfold bind at 1, call at 1 in H. cbn [log] in H.
    set (l1 := EvPrint (MsgWaitingHealthy (length ids)) :: EvSleep 30 :: log w) in *.
    assert (Hcap : group_at_capacity ids gs).
    { apply in_map_iff in Hin. destruct Hin as [g [Hg Hing]].
      inversion Hg; subst. exists g. split; [exact Hing|].
      split; [symmetry; apply in_service_ids_filter|].
      now apply Z.eqb_eq. }
    assert (Hl1 : last_fetch l1 = Some gs) by exact Hfetch.
    destruct (respond aws l1 (WaitInstanceStatusOk region ids 100 15)) as [p|e] eqn:E.
    + unfold bind, print, ret in H. inversion H; subst. cbn.
      fold l1. split; [|discriminate].
      split; [exists gs, ids; repeat split; auto|].
      split; [exists gs; split; auto | exact Hj].
    + inversion H; subst. cbn. fold l1. split; [|discriminate].
      split; [exists gs; split; auto | exact Hj].
  - unfold bind, print, ret in H. inversion H; subst. cbn. split; [exact Hj|].
    intros _. exact Hfetch.
Qed.

Lemma for_loop_wait_group_justified region gs infos w r w' :
  (forall info, In info infos ->
     In info (map (fun g => (DesiredCapacity g, in_service_ids g)) gs)) ->
  last_fetch (log w) = Some gs ->
  health_waits_justified (log w) ->
  for_loop infos (wait_group aws region) w = (r, w') ->
  health_waits_justified (log w').
Proof.
  revert w. induction infos as [|info infos IH]; intros w Hin Hfetch Hj H.
  - inversion H; subst. exact Hj.
  - cbn [for_loop] in H. unfold bind in H.
    destruct (wait_group aws region info w) as [r1 w1] eqn:E.
    destruct (wait_group_justified region gs info w r1 w1
                (Hin info (or_introl eq_refl)) Hfetch Hj E) as [Hj1 Hf1].
    destruct r1 as [[v|]|e|].
    + inversion H; subst. exact Hj1.
    + apply (IH w1); auto. intros i Hi. apply Hin. now right.
    + inversion H; subst. exact Hj1.
    + inversion H; subst. exact Hj1.
Qed.

Lemma wait_loop_justified fuel asg_name region end_time w r w' :
  health_waits_justified (log w) ->
  wait_loop aws fuel asg_name region end_time w = (r, w') ->
  health_waits_justified (log w').
Proof.
  revert w. induction fuel as [|fuel IH]; intros w Hj H;
    cbn [wait_loop] in H; unfold bind at 1, time_time at 1 in H;
    destruct (clock w <? end_time);
    try (inversion H; subst; exact Hj).
  unfold bind at 1 in H.
  destruct (get_groups aws asg_name region w) as [rg wg] eqn:Eg.
  unfold get_groups, bind at 1, call at 1 in Eg.
  set (rq := DescribeAutoScalingGroups region [asg_name]) in *.
  assert (Hjg : health_waits_justified (log (after_call aws rq w))) by exact Hj.
  destruct (respond aws (log w) rq) as [p|e] eqn:E.
  - destruct p as [gs| | | | |];
      try (inversion Eg; subst; inversion H; subst; exact Hjg).
    cbn [get_AutoScalingGroups] in Eg. unfold bind, ret in Eg.
    rewrite group_info_acc in Eg. cbn [app] in Eg.
    inversion Eg; subst rg wg. clear Eg.
    unfold bind at 1 in H.
    destruct (for_loop (map (fun g => (DesiredCapacity g, in_service_ids g)) gs)
                (wait_group aws region) (after_call aws rq w)) as [rl wl] eqn:El.
    assert (Hjl : health_waits_justified (log wl)).
    { apply (for_loop_wait_group_justified region gs _ _ _ _ (fun _ Hi => Hi)) in El;
        auto.
      unfold after_call. cbn [log]. unfold rq at 1. cbn [last_fetch]. now rewrite E. }
    destruct rl as [[v|]|e|].
    + inversion H; subst. exact Hjl.
    + apply (IH wl); assumption.
    + inversion H; subst. exact Hjl.
    + inversion H; subst. exact Hjl.
  - inversion Eg; subst. inversion H; subst. exact Hjg.
Qed.

End CapacityWaiter.

(** C3: in every run of [wait_for_running], whatever the provider answers
    and however the run ends, each health-check wait it starts, and each
    report of healthy instances before its [return], comes after a group
    description, the newest one at that moment, that showed a group with
    exactly those members and as many of them as its desired capacity:
    the wait is never left through line 129 on a count that differs. *)
Theorem wait_for_running_proceeds_only_at_capacity :
  forall aws fuel asg_name region timeout w r w',
    wait_for_running aws fuel asg_name region timeout w = (r, w') ->
    health_waits_justified (log w) ->
    health_waits_justified (log w').
Proof.
  intros aws fuel asg_name region timeout w r w' H Hj.
  unfold wait_for_running in H.
  unfold bind at 1, time_time at 1 in H. unfold bind at 1, print at 1 in H.
  eapply wait_loop_justified; [|exact H]. exact Hj.
Qed.

Lemma wait_for_running_proceeds_only_at_capacity_witness :
  health_waits_justified
    (log (snd (wait_for_running flaky_wait 30 "web-asg" "us-east-1" 10 w0))).
Proof.
  apply (wait_for_running_proceeds_only_at_capacity flaky_wait 30 "web-asg" "us-east-1"
           10 w0 (fst (wait_for_running flaky_wait 30 "web-asg" "us-east-1" 10 w0))).
  - reflexivity.
  - exact I.
Defined.

Section CapacityDeadline.

Variable aws : Provider.

Lemma extends_refl (l : list event) : extends l l.
Proof. now exists []. Qed.

Lemma extends_trans (a b c : list event) : extends a b -> extends b c -> extends a c.
Proof.
  intros [n1 ->] [n2 ->]. exists (n1 ++ n2). now rewrite app_assoc.
Qed.



Lemma wait_group_at_capacity region capacity ids w p :
  len ids = capacity ->
  let w2 := after_print (MsgWaitingHealthy (length ids))
              (mkWorld (clock w + 30) (EvSleep 30 :: log w)) in
  respond aws (log w2) (WaitInstanceStatusOk region ids 100 15) = Returned p ->
  wait_group aws region (capacity, ids) w
  = (Ok (Some tt),
     after_print (MsgFoundHealthy (length ids))
       (after_call aws (WaitInstanceStatusOk region ids 100 15) w2)).
Proof.
  intros Hlen w2 Hp. unfold wait_group.
  apply Z.eqb_eq in Hlen. rewrite Hlen. cbn [negb].
  unfold bind at 1, sleep at 1.
  rewrite (bind_Ok _ _ _ _ _ (print_run _ _)). fold w2.
  rewrite (bind_Ok _ _ _ _ _ (call_Returned aws _ _ _ Hp)).
  reflexivity.
Qed.


Lemma get_groups_emits P asg_name region :
  (forall rs, P (EvCall (DescribeAutoScalingGroups region [asg_name]) rs)) ->
  emits P (get_groups aws asg_name region).
Proof.
  intros HP. unfold get_groups.
  apply emits_bind; [now apply emits_call|].
  intros p. apply emits_bind; [|intros; apply emits_ret].
  destruct p; simpl; first [apply emits_ret | apply emits_raise].
Qed.






End CapacityDeadline.



(** ** Workload Drainer: the wait for the tasks to stop *)

Section DrainWait.

Variable aws : Provider.







End DrainWait.

Lemma for_loop_first_match aws fuel region cluster id cis ci w :
  find (fun i => (ec2InstanceId i =? id)%string) cis = Some ci ->
  for_loop cis
    (fun instance =>
       if (ec2InstanceId instance =? id)%string
       then bind (drain_found aws fuel region cluster instance) (fun _ => ret (Some tt))
       else ret None) w
  = bind (bind (drain_found aws fuel region cluster ci) (fun _ => ret (Some tt)))
         (fun r => match r with
                   | Some v => ret (Some v)
                   | None => ret None
                   end) w.
Proof.
  induction cis as [|c cis IH]; intros H; [discriminate H|].
  cbn [find] in H. cbn [for_loop].
  destruct (ec2InstanceId c =? id)%string.
  - inversion H; subst. unfold bind.
    destruct (drain_found aws fuel region cluster ci w) as [[[]|e|] w']; reflexivity.
  - unfold bind at 1, ret at 1. now apply IH.
Qed.



(** ** The log observations tell runs apart *)

Example health_wait_without_fetch_is_not_justified :
  ~ health_waits_justified
      [EvCall (WaitInstanceStatusOk "us-east-1" ["i-1"] 100 15) (Returned PNone)].
Proof. intros [[gs [H _]] _]. discriminate H. Qed.

Example health_wait_below_capacity_is_not_justified :
  ~ health_waits_justified
      [EvCall (WaitInstanceStatusOk "us-east-1" ["i-1"] 100 15) (Returned PNone);
       EvCall (DescribeAutoScalingGroups "us-east-1" ["web-asg"])
         (Returned (PGroups [short_asg]))].
Proof.
  intros [[gs [H [g [Hin [_ Hcap]]]]] _]. cbn in H. inversion H; subst gs.
  destruct Hin as [<-|[]]. vm_compute in Hcap. discriminate Hcap.
Qed.

Example sleep_after_zero_reading_is_rejected :
  sleeps_only_while_tasks_run None
    [EvCall (DescribeContainerInstances "us-east-1" "cluster" ["arn-1"])
       (Returned (PContainers [mk_container_instance "i-1" "arn-1" 0]));
     EvSleep 30]
  = false.
Proof. reflexivity. Qed.

Example one_page_drains_without_delay :
  drain_instance one_page 20 "i-1" "cluster" "us-east-1" w0
  = (Ok tt,
     mkWorld 0
       [EvCall (DescribeContainerInstances "us-east-1" "cluster" ["arn-1"])
          (Returned (PContainers [mk_container_instance "i-1" "arn-1" 0]));
        EvCall (UpdateContainerInstancesState "us-east-1" "cluster" ["arn-1"] "DRAINING")
          (Returned (PUpdate []));
        EvCall (DescribeContainerInstances "us-east-1" "cluster" ["arn-1"])
          (Returned (PContainers [mk_container_instance "i-1" "arn-1" 0]));
        EvCall (ListContainerInstances "us-east-1" "cluster" None)
          (Returned (PList ["arn-1"] None))]).
Proof. reflexivity. Qed.

(** ** Footprints of the components *)

Section Footprints.

Variable aws : Provider.

Lemma emits_weaken {A} (P Q : event -> Prop) (m : M A) :
  (forall ev, P ev -> Q ev) -> emits P m -> emits Q m.
Proof.
  intros HPQ Hm w r w' H. destruct (Hm _ _ _ H) as [Hc [n [Hl Hf]]].
  split; [exact Hc|]. exists n. split; [exact Hl|].
  eapply Forall_impl; [exact HPQ | exact Hf].
Qed.

Lemma emits_try_except {A} P (body : M A) (handler : exn -> M A) :
  emits P body -> (forall e, emits P (handler e)) -> emits P (try_except body handler).
Proof.
  intros Hb Hh w r w' H. unfold try_except in H.
  destruct (body w) as [[a|e|] w1] eqn:E.
  - inversion H; subst. exact (Hb _ _ _ E).
  - destruct (Hb _ _ _ E) as [Hc1 [n1 [Hl1 Hf1]]].
    destruct (Hh e _ _ _ H) as [Hc2 [n2 [Hl2 Hf2]]].
    split; [lia|]. exists (n2 ++ n1). split.
    + now rewrite Hl2, Hl1, app_assoc.
    + apply Forall_app. now split.
  - inversion H; subst. exact (Hb _ _ _ E).
Qed.

Lemma emits_index0 {A} P (xs : list A) : emits P (index0 xs).
Proof. destruct xs; [apply emits_raise | apply emits_ret]. Qed.

Lemma emits_get_containerInstances P p : emits P (get_containerInstances p).
Proof. destruct p; first [apply emits_ret | apply emits_raise]. Qed.

Lemma emits_get_failures P p : emits P (get_failures p).
Proof. destruct p; first [apply emits_ret | apply emits_raise]. Qed.

Lemma emits_get_Reservations P p : emits P (get_Reservations p).
Proof. destruct p; first [apply emits_ret | apply emits_raise]. Qed.

Ltac emits_steps_with known :=
  repeat first
    [ known
    | apply emits_ret
    | apply emits_raise
    | apply emits_out_of_fuel
    | apply emits_time_time
    | apply emits_index0
    | apply emits_get_containerInstances
    | apply emits_get_containerInstanceArns
    | apply emits_get_failures
    | apply emits_get_Reservations
    | apply emits_print; cbn; tauto
    | apply emits_sleep; [lia | cbn; tauto]
    | apply emits_call; intro; cbn; tauto
    | apply emits_bind; [| intro ] ].

Ltac emits_steps := emits_steps_with fail.

Lemma get_running_tasks_footprint region cluster arn :
  emits (drain_footprint region cluster) (get_running_tasks aws region cluster arn).
Proof. unfold get_running_tasks. emits_steps. Qed.

Lemma drain_wait_footprint fuel region cluster arn end_time running_tasks :
  emits (drain_footprint region cluster)
        (drain_wait aws fuel region cluster arn end_time running_tasks).
Proof.
  revert running_tasks. induction fuel as [|fuel IH]; intros rt; cbn [drain_wait];
    destruct (rt =? 0); emits_steps;
    match goal with |- emits _ (if ?b then _ else _) => destruct b end;
    emits_steps_with ltac:(apply IH).
Qed.

Lemma drain_found_footprint fuel region cluster instance :
  emits (drain_footprint region cluster) (drain_found aws fuel region cluster instance).
Proof.
  unfold drain_found. emits_steps.
  match goal with |- emits _ (match ?l with _ => _ end) => destruct l end;
    emits_steps_with ltac:(apply drain_wait_footprint).
  match goal with |- emits _ (if ?b then _ else _) => destruct b end; emits_steps.
Qed.

Lemma list_container_instances_footprint fuel region cluster :
  emits (drain_footprint region cluster)
        (list_container_instances aws fuel region cluster).
Proof.
  eapply emits_weaken; [|apply list_container_instances_emits].
  intros ev [rs ->]. cbn. tauto.
Qed.

Lemma drain_instance_footprint fuel id cluster region :
  emits (drain_footprint region cluster) (drain_instance aws fuel id cluster region).
Proof.
  unfold drain_instance.
  apply emits_bind; [apply list_container_instances_footprint|]. intros arns.
  emits_steps_with ltac:(apply emits_for_loop; intro).
  - match goal with |- emits _ (if ?b then _ else _) => destruct b end;
      emits_steps_with ltac:(apply drain_found_footprint).
  - match goal with |- emits _ (match ?r with _ => _ end) => destruct r end;
      emits_steps.
Qed.

Lemma wait_group_footprint asg_name region info :
  emits (wait_footprint asg_name region) (wait_group aws region info).
Proof.
  destruct info as [capacity ids]. unfold wait_group. emits_steps.
  destruct (negb (len ids =? capacity)); emits_steps.
Qed.

Lemma wait_loop_footprint fuel asg_name region end_time :
  emits (wait_footprint asg_name region) (wait_loop aws fuel asg_name region end_time).
Proof.
  induction fuel as [|fuel IH]; cbn [wait_loop]; emits_steps;
    match goal with |- emits _ (if ?b then _ else _) => destruct b end;
    emits_steps_with ltac:(first [ apply emits_for_loop; intro; apply wait_group_footprint
                                 | apply get_groups_emits; intro; cbn; tauto ]).
  match goal with |- emits _ (match ?r with _ => _ end) => destruct r end;
    [apply emits_ret | exact IH].
Qed.

Lemma wait_for_running_footprint fuel asg_name region timeout :
  emits (wait_footprint asg_name region)
        (wait_for_running aws fuel asg_name region timeout).
Proof.
  unfold wait_for_running. emits_steps_with ltac:(apply wait_loop_footprint).
Qed.

Lemma terminate_step_footprint region id :
  emits (termination_footprint region id) (terminate_step aws region id).
Proof.
  unfold terminate_step. apply emits_try_except.
  - unfold terminate_and_wait. emits_steps.
  - intros e. unfold terminate_handler. emits_steps.
    match goal with |- emits _ (if ?b then _ else _) => destruct b end; emits_steps.
Qed.

Lemma drain_step_footprint fuel asg_name region ecs_cluster id :
  emits (rotation_footprint asg_name region ecs_cluster)
        (drain_step aws fuel region ecs_cluster id).
Proof.
  unfold drain_step, print_sep.
  apply emits_bind; [apply emits_print; right; right; right; exact I|]. intros _.
  destruct ecs_cluster as [cluster|]; [|apply emits_ret].
  destruct (truthy (Some cluster)) eqn:Ht; [|apply emits_ret].
  assert (Hne : cluster <> "")
    by (cbn in Ht; apply negb_true_iff in Ht; now apply String.eqb_neq).
  apply emits_bind; [apply emits_print; right; right; right; exact I|]. intros _.
  apply emits_bind; [|intros _; apply emits_print; right; right; right; exact I].
  eapply emits_weaken; [|apply drain_instance_footprint].
  intros ev Hev. right. right. left. now exists cluster.
Qed.

Lemma restart_instance_footprint fuel asg_name region ecs_cluster total item :
  emits (rotation_footprint asg_name region ecs_cluster)
        (restart_instance aws fuel asg_name region ecs_cluster total item).
Proof.
  destruct item as [idx id]. unfold restart_instance.
  apply emits_bind; [apply drain_step_footprint|]. intros _.
  apply emits_bind.
  - eapply emits_weaken; [|apply terminate_step_footprint].
    intros ev Hev. right. left. now exists id.
  - intros [|]; [|apply emits_ret].
    apply emits_bind.
    + eapply emits_weaken; [|apply wait_for_running_footprint].
      intros ev Hev. now left.
    + intros _. apply emits_bind; [|intros _; apply emits_ret].
      apply emits_print. right. right. right. exact I.
Qed.

Lemma restart_all_footprint fuel asg_name region ecs_cluster :
  emits (rotation_footprint asg_name region ecs_cluster)
        (restart_all aws fuel asg_name region ecs_cluster).
Proof.
  unfold restart_all.
  apply emits_bind; [apply get_groups_emits; intros rs; left; cbn; tauto|].
  intros infos. apply emits_bind; [|intros _; apply emits_ret].
  apply emits_for_loop. intros [capacity ids]. unfold restart_group.
  apply emits_bind; [apply emits_print; right; right; right; exact I|]. intros _.
  apply emits_for_loop. intros item. apply restart_instance_footprint.
Qed.

End Footprints.

Lemma existsb_false_of_Forall {A} (P : A -> Prop) (f : A -> bool) (l : list A) :
  (forall x, P x -> f x = false) -> Forall P l -> existsb f l = false.
Proof.
  intros H Hf. induction Hf as [|x l Hx _ IH]; [reflexivity|].
  cbn. now rewrite (H x Hx), IH.
Qed.

(** X1: whatever the provider answers and however the run ends,
    [drain_instance] only adds to the log: tokenless listings,
    descriptions and DRAINING updates of container instances of its own
    cluster and region, sleeps of 30 seconds and its two prints.  It sends
    no termination request, and the clock does not go back. *)
Theorem drain_instance_stays_in_its_cluster :
  forall aws fuel id cluster region w r w',
    drain_instance aws fuel id cluster region w = (r, w') ->
    clock w <= clock w'
    /\ exists new,
         log w' = new ++ log w
         /\ Forall (drain_footprint region cluster) new
         /\ existsb is_terminate new = false.
Proof.
  intros aws fuel id cluster region w r w' H.
  destruct (drain_instance_footprint aws fuel id cluster region _ _ _ H)
    as [Hc [new [Hl Hf]]].
  split; [exact Hc|]. exists new. repeat split; auto.
  eapply existsb_false_of_Forall; [|exact Hf].
  intros [rq rs|s|m] Hev; [destruct rq; cbn in *; tauto | reflexivity | reflexivity].
Qed.

Lemma drain_instance_stays_in_its_cluster_witness :
  exists new,
    log (snd (drain_instance busy_forever 20 "i-1" "cluster" "us-east-1" w0))
    = new ++ log w0
    /\ Forall (drain_footprint "us-east-1" "cluster") new
    /\ existsb is_terminate new = false.
Proof.
  apply (drain_instance_stays_in_its_cluster busy_forever 20 "i-1" "cluster" "us-east-1"
           w0 (fst (drain_instance busy_forever 20 "i-1" "cluster" "us-east-1" w0))).
  vm_compute. reflexivity.
Defined.

(** X2: [wait_for_running] is read-only.  In every run it only adds
    descriptions of its own group, health-check waits of 100 attempts 15
    seconds apart, sleeps of 30 seconds and its prints: it never sends a
    termination request or a container-instance update, and the clock
    does not go back. *)
Theorem wait_for_running_is_read_only :
  forall aws fuel asg_name region timeout w r w',
    wait_for_running aws fuel asg_name region timeout w = (r, w') ->
    clock w <= clock w'
    /\ exists new,
         log w' = new ++ log w
         /\ Forall (wait_footprint asg_name region) new
         /\ existsb is_mutation new = false.
Proof.
  intros aws fuel asg_name region timeout w r w' H.
  destruct (wait_for_running_footprint aws fuel asg_name region timeout _ _ _ H)
    as [Hc [new [Hl Hf]]].
  split; [exact Hc|]. exists new. repeat split; auto.
  eapply existsb_false_of_Forall; [|exact Hf].
  intros [rq rs|s|m] Hev; [destruct rq; cbn in *; tauto | reflexivity | reflexivity].
Qed.

Lemma wait_for_running_is_read_only_witness :
  exists new,
    log (snd (wait_for_running never_recovers 20 "web-asg" "us-east-1" 10 w0))
    = new ++ log w0
    /\ Forall (wait_footprint "web-asg" "us-east-1") new
    /\ existsb is_mutation new = false.
Proof.
  apply (wait_for_running_is_read_only never_recovers 20 "web-asg" "us-east-1" 10 w0
           (fst (wait_for_running never_recovers 20 "web-asg" "us-east-1" 10 w0))).
  vm_compute. reflexivity.
Defined.

(** X3: every event of a rotation is a description of the group or a
    health-check wait, a step of the termination of one instance in the
    region, a progress line, or, only when the cluster name counts as
    true, a draining step in that cluster.  So with no cluster, or with
    the empty string as cluster, [restart_all] sends no request to the
    container service at all. *)
Theorem restart_all_drains_only_with_a_cluster :
  forall aws fuel asg_name region ecs_cluster w r w',
    restart_all aws fuel asg_name region ecs_cluster w = (r, w') ->
    clock w <= clock w'
    /\ exists new,
         log w' = new ++ log w
         /\ Forall (rotation_footprint asg_name region ecs_cluster) new
         /\ (truthy ecs_cluster = false -> existsb is_ecs_call new = false).
Proof.
  intros aws fuel asg_name region ecs_cluster w r w' H.
  destruct (restart_all_footprint aws fuel asg_name region ecs_cluster _ _ _ H)
    as [Hc [new [Hl Hf]]].
  split; [exact Hc|]. exists new. repeat split; auto.
  intros Ht. eapply existsb_false_of_Forall; [|exact Hf].
  intros ev [Hev|[[id Hev]|[[cluster [Hcl [Hne _]]]|Hev]]].
  - destruct ev as [rq rs|s|m]; [destruct rq; cbn in *; tauto | reflexivity | reflexivity].
  - destruct ev as [rq rs|s|m]; [destruct rq; cbn in *; tauto | reflexivity | reflexivity].
  - subst ecs_cluster. cbn in Ht. apply negb_false_iff, String.eqb_eq in Ht. contradiction.
  - destruct ev as [rq rs|s|m]; [destruct rq; cbn in *; tauto | reflexivity | reflexivity].
Qed.

Lemma restart_all_drains_only_with_a_cluster_witness :
  exists new,
    log (snd (restart_all one_page 30 "web-asg" "us-east-1" (Some "") w0))
    = new ++ log w0
    /\ Forall (rotation_footprint "web-asg" "us-east-1" (Some "")) new
    /\ (truthy (Some "") = false -> existsb is_ecs_call new = false).
Proof.
  apply (restart_all_drains_only_with_a_cluster one_page 30 "web-asg" "us-east-1"
           (Some "") w0
           (fst (restart_all one_page 30 "web-asg" "us-east-1" (Some "") w0))).
  vm_compute. reflexivity.
Defined.

(** ** Rotation Controller: which instances are terminated, and in which order *)

Section TerminationOrder.

Variable aws : Provider.

Lemma termination_requests_app (a b : list event) :
  termination_requests (a ++ b) = termination_requests a ++ termination_requests b.
Proof.
  induction a as [|ev a IH]; [reflexivity|].
  destruct ev as [rq rs|s|m]; cbn; [|exact IH|exact IH].
  destruct rq; cbn; try exact IH. now rewrite IH, app_assoc.
Qed.

Lemma termination_requests_none (new : list event) :
  Forall no_terminate new -> termination_requests (rev new) = [].
Proof.
  intros H. apply Forall_rev in H. induction H as [|ev l Hev _ IH]; [reflexivity|].
  destruct ev as [rq rs|s|m]; cbn; [|exact IH|exact IH].
  destruct rq; cbn; try exact IH. discriminate Hev.
Qed.

Lemma drain_instance_no_terminate fuel id cluster region :
  emits no_terminate (drain_instance aws fuel id cluster region).
Proof.
  eapply emits_weaken; [|apply drain_instance_footprint].
  intros [rq rs|s|m] Hev; unfold no_terminate;
    [destruct rq; cbn in *; first [reflexivity | tauto] | reflexivity | reflexivity].
Qed.

Lemma wait_for_running_no_terminate fuel asg_name region timeout :
  emits no_terminate (wait_for_running aws fuel asg_name region timeout).
Proof.
  eapply emits_weaken; [|apply wait_for_running_footprint].
  intros [rq rs|s|m] Hev; unfold no_terminate;
    [destruct rq; cbn in *; first [reflexivity | tauto] | reflexivity | reflexivity].
Qed.

Lemma drain_step_no_terminate fuel region ecs_cluster id :
  emits no_terminate (drain_step aws fuel region ecs_cluster id).
Proof.
  unfold drain_step, print_sep.
  apply emits_bind; [now apply emits_print|]. intros _.
  destruct ecs_cluster as [cluster|]; [|apply emits_ret].
  destruct (truthy (Some cluster)); [|apply emits_ret].
  apply emits_bind; [now apply emits_print|]. intros _.
  apply emits_bind; [apply drain_instance_no_terminate|].
  intros _. now apply emits_print.
Qed.

Lemma terminate_handler_no_terminate region id e :
  emits no_terminate (terminate_handler aws region id e).
Proof.
  eapply emits_weaken with (P := fun ev => termination_footprint region id ev
                                           /\ is_terminate ev = false);
    [intros ev [_ H]; exact H|].
  unfold terminate_handler.
  apply emits_bind; [apply emits_call; intros rs; cbn; tauto|]. intros p.
  apply emits_bind; [apply emits_print; cbn; tauto|]. intros _.
  apply emits_bind; [destruct p; first [apply emits_ret | apply emits_raise]|].
  intros rs. apply emits_bind; [destruct rs; [apply emits_raise | apply emits_ret]|].
  intros r0.
  apply emits_bind;
    [destruct (Reservation_Instances r0); [apply emits_raise | apply emits_ret]|].
  intros i0. destruct (State_Name i0 =? "terminated")%string;
    [apply emits_ret | apply emits_raise].
Qed.

(** The [try] statement sends exactly one termination request, for its
    instance, however it ends. *)
Lemma terminate_step_requests region id w r w' :
  terminate_step aws region id w = (r, w') ->
  exists new, log w' = new ++ log w /\ termination_requests (rev new) = [id].
Proof.
  unfold terminate_step, try_except, terminate_and_wait.
  rewrite (bind_Ok _ _ _ _ _ (print_run _ _)).
  set (w1 := after_print (MsgTerminating id) w).
  set (rq := TerminateInstances region [id]).
  set (w2 := after_call aws rq w1).
  assert (Hl2 : log w2 = [EvCall rq (respond aws (log w1) rq);
                          EvPrint (MsgTerminating id)] ++ log w) by reflexivity.
  assert (Hreq : forall n, Forall no_terminate n ->
            termination_requests
              (rev (n ++ [EvCall rq (respond aws (log w1) rq);
                          EvPrint (MsgTerminating id)])) = [id]).
  { intros n Hn. rewrite rev_app_distr, termination_requests_app.
    rewrite (termination_requests_none n Hn). reflexivity. }
  destruct (respond aws (log w1) rq) as [p|e] eqn:E.
  - rewrite (bind_Ok _ _ _ _ _ (call_Returned aws _ _ _ E)). fold w2.
    destruct ((sleep 10;;
               call aws (WaitInstanceTerminated region [id]);;
               print (MsgTerminated id);; ret true) w2) as [r3 w3] eqn:E3.
    assert (H3 : emits no_terminate
                   (sleep 10;;
                    call aws (WaitInstanceTerminated region [id]);;
                    print (MsgTerminated id);; ret true)).
    { apply emits_bind; [now apply emits_sleep|]. intros _.
      apply emits_bind; [now apply emits_call|]. intros _.
      apply emits_bind; [now apply emits_print|]. intros _. apply emits_ret. }
    destruct (H3 _ _ _ E3) as [_ [n3 [Hl3 Hf3]]].
    intros H. destruct r3 as [b|e3|].
    + inversion H; subst. exists (n3 ++ [EvCall rq (Returned p); EvPrint (MsgTerminating id)]).
      split; [rewrite Hl3, Hl2; now rewrite <- app_assoc | now apply Hreq].
    + destruct (terminate_handler_no_terminate region id e3 _ _ _ H)
        as [_ [nh [Hlh Hfh]]].
      exists ((nh ++ n3) ++ [EvCall rq (Returned p); EvPrint (MsgTerminating id)]).
      split; [rewrite Hlh, Hl3, Hl2; now rewrite <- !app_assoc|].
      apply Hreq. apply Forall_app. now split.
    + inversion H; subst. exists (n3 ++ [EvCall rq (Returned p); EvPrint (MsgTerminating id)]).
      split; [rewrite Hl3, Hl2; now rewrite <- app_assoc | now apply Hreq].
  - rewrite (bind_Raise _ _ _ _ _ (call_Raised aws _ _ _ E)). fold w2.
    intros H.
    destruct (terminate_handler_no_terminate region id e _ _ _ H)
      as [_ [nh [Hlh Hfh]]].
    exists (nh ++ [EvCall rq (Raised e); EvPrint (MsgTerminating id)]).
    split; [rewrite Hlh, Hl2; now rewrite <- app_assoc | now apply Hreq].
Qed.

Lemma restart_instance_requests fuel asg_name region ecs_cluster total idx id w r w' :
  restart_instance aws fuel asg_name region ecs_cluster total (idx, id) w = (r, w') ->
  exists new,
    log w' = new ++ log w
    /\ (termination_requests (rev new) = [id]
        \/ (termination_requests (rev new) = [] /\ forall v, r <> Ok v))
    /\ (forall v, r = Ok v -> v = None).
Proof.
  unfold restart_instance. unfold bind at 1.
  destruct (drain_step aws fuel region ecs_cluster id w) as [r0 w0'] eqn:E0.
  destruct (drain_step_no_terminate fuel region ecs_cluster id _ _ _ E0)
    as [_ [n0 [Hl0 Hf0]]].
  pose proof (termination_requests_none n0 Hf0) as Hn0.
  destruct r0 as [[]|e0|].
  2,3: intros H; inversion H; subst; exists n0;
       (split; [exact Hl0|]); (split; [right; split; [exact Hn0 | discriminate]
                                     | discriminate]).
  unfold bind at 1.
  destruct (terminate_step aws region id w0') as [r1 w1] eqn:E1.
  destruct (terminate_step_requests region id _ _ _ E1) as [n1 [Hl1 Hr1]].
  assert (Hreq : forall n, Forall no_terminate n ->
            termination_requests (rev ((n ++ n1) ++ n0)) = [id]).
  { intros n Hn. rewrite !rev_app_distr, !termination_requests_app.
    now rewrite Hn0, Hr1, (termination_requests_none n Hn). }
  destruct r1 as [[|]|e1|].
  - unfold bind at 1.
    destruct (wait_for_running aws fuel asg_name region default_timeout w1)
      as [r2 w2] eqn:E2.
    destruct (wait_for_running_no_terminate fuel asg_name region default_timeout
                _ _ _ E2) as [_ [n2 [Hl2 Hf2]]].
    destruct r2 as [[]|e2|].
    + intros H. inversion H; subst.
      exists (((EvPrint (MsgCompleted (idx + 1) total) :: n2) ++ n1) ++ n0).
      split; [cbn [log after_print app]; rewrite Hl2, Hl1, Hl0;
              now rewrite <- !app_assoc|].
      split; [|intros v Hv; now inversion Hv].
      left. apply Hreq. constructor; [reflexivity | exact Hf2].
    + intros H. inversion H; subst. exists ((n2 ++ n1) ++ n0).
      split; [rewrite Hl2, Hl1, Hl0; now rewrite <- !app_assoc|].
      split; [left; now apply Hreq | discriminate].
    + intros H. inversion H; subst. exists ((n2 ++ n1) ++ n0).
      split; [rewrite Hl2, Hl1, Hl0; now rewrite <- !app_assoc|].
      split; [left; now apply Hreq | discriminate].
  - intros H. inversion H; subst. exists (([] ++ n1) ++ n0).
    split; [rewrite Hl1, Hl0; now rewrite <- !app_assoc|].
    split; [left; apply Hreq; constructor | intros v Hv; now inversion Hv].
  - intros H. inversion H; subst. exists (([] ++ n1) ++ n0).
    split; [rewrite Hl1, Hl0; now rewrite <- !app_assoc|].
    split; [left; apply Hreq; constructor | discriminate].
  - intros H. inversion H; subst. exists (([] ++ n1) ++ n0).
    split; [rewrite Hl1, Hl0; now rewrite <- !app_assoc|].
    split; [left; apply Hreq; constructor | discriminate].
Qed.

Lemma is_prefix_refl {A} (xs : list A) : is_prefix xs xs.
Proof. exists []. now rewrite app_nil_r. Qed.

Lemma is_prefix_nil {A} (xs : list A) : is_prefix [] xs.
Proof. now exists xs. Qed.

Lemma is_prefix_app {A} (xs ys zs : list A) :
  is_prefix ys zs -> is_prefix (xs ++ ys) (xs ++ zs).
Proof. intros [rest ->]. exists rest. now rewrite app_assoc. Qed.

Lemma is_prefix_weaken {A} (xs ys zs : list A) :
  is_prefix xs ys -> is_prefix xs (ys ++ zs).
Proof. intros [rest ->]. exists (rest ++ zs). now rewrite app_assoc. Qed.

(** The member loop of lines 89-110 over any stretch of the enumeration. *)
Lemma member_loop_requests fuel asg_name region ecs_cluster total items w r w' :
  for_loop items (restart_instance aws fuel asg_name region ecs_cluster total) w
    = (r, w') ->
  exists new,
    log w' = new ++ log w
    /\ is_prefix (termination_requests (rev new)) (map snd items)
    /\ (forall v, r = Ok v ->
          v = None /\ termination_requests (rev new) = map snd items).
Proof.
  revert w. induction items as [|[idx id] items IH]; intros w H.
  - inversion H; subst. exists []. cbn.
    split; [reflexivity|]. split; [apply is_prefix_nil|].
    intros v Hv. inversion Hv. now split.
  - cbn [for_loop] in H. unfold bind at 1 in H.
    destruct (restart_instance aws fuel asg_name region ecs_cluster total (idx, id) w)
      as [r1 w1] eqn:E1.
    destruct (restart_instance_requests _ _ _ _ _ _ _ _ _ _ E1)
      as [n1 [Hl1 [Hreq1 Hnone1]]].
    assert (Hpre1 : is_prefix (termination_requests (rev n1)) (id :: map snd items)).
    { destruct Hreq1 as [->|[-> _]];
        [apply (is_prefix_weaken [id] [id]), is_prefix_refl | apply is_prefix_nil]. }
    destruct r1 as [v1|e1|].
    + rewrite (Hnone1 v1 eq_refl) in H.
      destruct Hreq1 as [Hreq1|[_ Hno]]; [|exfalso; exact (Hno v1 eq_refl)].
      destruct (IH _ H) as [n2 [Hl2 [Hpre2 Hok2]]].
      exists (n2 ++ n1).
      split; [rewrite Hl2, Hl1; now rewrite app_assoc|].
      rewrite rev_app_distr, termination_requests_app, Hreq1.
      split; [exact (is_prefix_app [id] _ _ Hpre2)|].
      intros v Hv. destruct (Hok2 v Hv) as [Hv2 Heq]. split; [exact Hv2|].
      cbn [map snd app]. now rewrite Heq.
    + inversion H; subst. exists n1.
      split; [exact Hl1|]. split; [exact Hpre1 | discriminate].
    + inversion H; subst. exists n1.
      split; [exact Hl1|]. split; [exact Hpre1 | discriminate].
Qed.

Lemma map_snd_combine_seq {A} (xs : list A) (start : nat) :
  map snd (combine (seq start (length xs)) xs) = xs.
Proof.
  revert start. induction xs as [|x xs IH]; intros start; [reflexivity|].
  cbn. now rewrite IH.
Qed.

Lemma restart_group_requests fuel asg_name region ecs_cluster info w r w' :
  restart_group aws fuel asg_name region ecs_cluster info w = (r, w') ->
  exists new,
    log w' = new ++ log w
    /\ is_prefix (termination_requests (rev new)) (snd info)
    /\ (forall v, r = Ok v -> v = None /\ termination_requests (rev new) = snd info).
Proof.
  destruct info as [capacity ids]. unfold restart_group.
  rewrite (bind_Ok _ _ _ _ _ (print_run _ _)). intros H.
  destruct (member_loop_requests _ _ _ _ _ _ _ _ _ H) as [n [Hl [Hpre Hok]]].
  unfold enumerate in Hpre, Hok. rewrite map_snd_combine_seq in Hpre, Hok.
  exists (n ++ [EvPrint (MsgActiveInstances (length ids))]).
  split; [rewrite Hl; cbn [after_print log]; now rewrite <- app_assoc|].
  rewrite rev_app_distr. cbn [rev app termination_requests]. split; assumption.
Qed.

Lemma group_loop_requests fuel asg_name region ecs_cluster infos w r w' :
  for_loop infos (restart_group aws fuel asg_name region ecs_cluster) w = (r, w') ->
  exists new,
    log w' = new ++ log w
    /\ is_prefix (termination_requests (rev new)) (concat (map snd infos))
    /\ (forall v, r = Ok v -> termination_requests (rev new) = concat (map snd infos)).
Proof.
  revert w. induction infos as [|info infos IH]; intros w H.
  - inversion H; subst. exists []. cbn.
    split; [reflexivity|]. split; [apply is_prefix_nil | reflexivity].
  - cbn [for_loop] in H. unfold bind at 1 in H.
    destruct (restart_group aws fuel asg_name region ecs_cluster info w)
      as [r1 w1] eqn:E1.
    destruct (restart_group_requests _ _ _ _ _ _ _ _ E1) as [n1 [Hl1 [Hpre1 Hok1]]].
    cbn [map concat].
    destruct r1 as [v1|e1|].
    + destruct (Hok1 v1 eq_refl) as [-> Heq1].
      destruct (IH _ H) as [n2 [Hl2 [Hpre2 Hok2]]].
      exists (n2 ++ n1).
      split; [rewrite Hl2, Hl1; now rewrite app_assoc|].
      rewrite rev_app_distr, termination_requests_app, Heq1.
      split; [now apply is_prefix_app|].
      intros v Hv. now rewrite (Hok2 v Hv).
    + inversion H; subst. exists n1.
      split; [exact Hl1|]. split; [now apply is_prefix_weaken | discriminate].
    + inversion H; subst. exists n1.
      split; [exact Hl1|]. split; [now apply is_prefix_weaken | discriminate].
Qed.

End TerminationOrder.

(** X4: the rotation terminates the in-service members listed by the one
    description made at its start, one request per member, in the order
    listed, group after group, and nothing else: the ids of the
    termination requests of any run are a prefix of that list, and of a
    run that ends normally the whole list. *)
Theorem restart_all_terminates_listed_members_in_order :
  forall aws fuel asg_name region ecs_cluster w gs r w',
    respond aws (log w) (DescribeAutoScalingGroups region [asg_name])
      = Returned (PGroups gs) ->
    restart_all aws fuel asg_name region ecs_cluster w = (r, w') ->
    let members := concat (map (fun g => map InstanceId (filter in_service (Instances g)))
                               gs) in
    exists new,
      log w' = new ++ log w
      /\ is_prefix (termination_requests (rev new)) members
      /\ (r = Ok tt -> termination_requests (rev new) = members).
Proof.
  intros aws fuel asg_name region ecs_cluster w gs r w' Hresp H members.
  unfold restart_all in H.
  rewrite (bind_Ok _ _ _ _ _ (get_groups_Returned aws _ _ _ _ Hresp)) in H.
  unfold bind at 1 in H.
  set (w1 := after_call aws (DescribeAutoScalingGroups region [asg_name]) w) in *.
  destruct (for_loop (map (fun g => (DesiredCapacity g, in_service_ids g)) gs)
              (restart_group aws fuel asg_name region ecs_cluster) w1)
    as [r1 w1'] eqn:E1.
  destruct (group_loop_requests aws _ _ _ _ _ _ _ _ E1) as [n1 [Hl1 [Hpre1 Hok1]]].
  assert (Hm : concat (map snd (map (fun g => (DesiredCapacity g, in_service_ids g)) gs))
               = members).
  { unfold members. rewrite map_map. cbn [snd]. f_equal.
    apply map_ext. intros g. apply in_service_ids_filter. }
  rewrite Hm in Hpre1, Hok1.
  exists (n1 ++ [EvCall (DescribeAutoScalingGroups region [asg_name])
                   (respond aws (log w) (DescribeAutoScalingGroups region [asg_name]))]).
  assert (Hl : log w1' = (n1 ++ [EvCall (DescribeAutoScalingGroups region [asg_name])
                   (respond aws (log w) (DescribeAutoScalingGroups region [asg_name]))])
                   ++ log w)
    by (rewrite Hl1; unfold w1, after_call; cbn [log]; now rewrite <- app_assoc).
  rewrite rev_app_distr. cbn [rev app termination_requests].
  destruct r1 as [v1|e1|]; inversion H; subst; (split; [exact Hl|]);
    (split; [exact Hpre1|]); [intros _; now apply (Hok1 v1) | discriminate | discriminate].
Qed.

Lemma restart_all_terminates_listed_members_in_order_witness :
  exists new,
    log (snd (restart_all flaky_wait 30 "web-asg" "us-east-1" None w0)) = new ++ log w0
    /\ is_prefix (termination_requests (rev new)) ["i-1"; "i-2"]
    /\ (fst (restart_all flaky_wait 30 "web-asg" "us-east-1" None w0) = Ok tt ->
        termination_requests (rev new) = ["i-1"; "i-2"]).
Proof.
  apply (restart_all_terminates_listed_members_in_order flaky_wait 30 "web-asg"
           "us-east-1" None w0 [web_asg]
           (fst (restart_all flaky_wait 30 "web-asg" "us-east-1" None w0))
           (snd (restart_all flaky_wait 30 "web-asg" "us-east-1" None w0))).
  - reflexivity.
  - vm_compute. reflexivity.
Defined.

(** ** Workload Drainer: what is listed, what is set to DRAINING *)

Section DrainerRequests.

Variable aws : Provider.

Lemma pages_received_app (a b : list event) :
  pages_received (a ++ b) = pages_received a ++ pages_received b.
Proof.
  induction a as [|ev a IH]; [reflexivity|].
  destruct ev as [rq rs|s|m]; cbn; [|exact IH|exact IH].
  destruct rq; cbn; try exact IH.
  destruct rs as [p|e]; [|exact IH].
  destruct p; try exact IH. now rewrite IH, app_assoc.
Qed.

Lemma list_more_pages fuel region cluster response acc w arns w' :
  list_more aws fuel region cluster response acc w = (Ok arns, w') ->
  exists new, log w' = new ++ log w /\ arns = acc ++ pages_received (rev new).
Proof.
  revert response acc w. induction fuel as [|fuel IH]; intros response acc w H;
    cbn [list_more] in H; destruct (truthy (get_nextToken response));
    try discriminate H;
    try (inversion H; subst; exists []; cbn; now rewrite app_nil_r).
  unfold bind at 1, call at 1 in H.
  set (rq := ListContainerInstances region cluster None) in *.
  destruct (respond aws (log w) rq) as [p|e] eqn:E; [|discriminate H].
  destruct p as [|page tok| | | |]; try discriminate H.
  cbn [get_containerInstanceArns] in H. unfold bind at 1, ret at 1 in H.
  destruct (IH _ _ _ H) as [new [Hl Harns]].
  exists (new ++ [EvCall rq (Returned (PList page tok))]).
  split.
  - rewrite Hl. unfold after_call. cbn [log]. rewrite E. now rewrite <- app_assoc.
  - rewrite rev_app_distr. cbn [rev app]. unfold rq at 1. cbn [pages_received].
    now rewrite Harns, <- app_assoc.
Qed.

Lemma get_running_tasks_no_update region cluster arn :
  emits (fun ev => is_update ev = false) (get_running_tasks aws region cluster arn).
Proof.
  eapply emits_weaken with (P := fun ev => is_update ev = false
                                           /\ drain_footprint region cluster ev);
    [intros ev [H _]; exact H|].
  unfold get_running_tasks.
  apply emits_bind; [apply emits_call; intros rs; cbn; tauto|]. intros p.
  apply emits_bind; [apply emits_get_containerInstances|]. intros cis.
  apply emits_bind; [apply emits_index0 | intros ci; apply emits_ret].
Qed.

Lemma drain_wait_no_update fuel region cluster arn end_time running_tasks :
  emits (fun ev => is_update ev = false)
        (drain_wait aws fuel region cluster arn end_time running_tasks).
Proof.
  revert running_tasks. induction fuel as [|fuel IH]; intros rt; cbn [drain_wait];
    destruct (rt =? 0); try apply emits_ret;
    (apply emits_bind; [apply emits_time_time|]); intros now;
    destruct (now <? end_time); try apply emits_ret; try apply emits_out_of_fuel.
  apply emits_bind; [now apply emits_sleep|]. intros _.
  apply emits_bind; [now apply emits_print|]. intros _.
  apply emits_bind; [apply get_running_tasks_no_update|]. intros rt'. apply IH.
Qed.

(** [drain_found] starts with the DRAINING request for its record and
    sends no other update. *)
Lemma drain_found_requests fuel region cluster ci w r w' :
  drain_found aws fuel region cluster ci w = (r, w') ->
  let update := UpdateContainerInstancesState region cluster
                  [containerInstanceArn ci] "DRAINING" in
  exists n,
    log w' = n ++ [EvCall update (respond aws (log w) update)] ++ log w
    /\ Forall (fun ev => is_update ev = false) n.
Proof.
  intros H update. unfold drain_found in H. fold update in H.
  unfold bind at 1, call at 1 in H.
  assert (Htail : forall p,
            emits (fun ev => is_update ev = false)
              (failures <- get_failures p ;;
               match failures with
               | [] =>
                   running_tasks <- get_running_tasks aws region cluster
                                      (containerInstanceArn ci) ;;
                   now <- time_time ;;
                   let end_time := now + DRAIN_WAIT in
                   drain_wait aws fuel region cluster (containerInstanceArn ci)
                     end_time running_tasks ;;
                   now' <- time_time ;;
                   if end_time <? now' then print MsgDrainTimedOut else ret tt
               | _ :: _ =>
                   raise (PyException ("Failed to drain: " ++ repr_list failures)%string)
               end)).
  { intros p. apply emits_bind; [apply emits_get_failures|]. intros fs.
    destruct fs; [|apply emits_raise].
    apply emits_bind; [apply get_running_tasks_no_update|]. intros rt.
    apply emits_bind; [apply emits_time_time|]. intros now. cbv zeta.
    apply emits_bind; [apply drain_wait_no_update|]. intros _.
    apply emits_bind; [apply emits_time_time|]. intros now'.
    destruct (now + DRAIN_WAIT <? now'); [now apply emits_print | apply emits_ret]. }
  destruct (respond aws (log w) update) as [p|e] eqn:E.
  - destruct (Htail p _ _ _ H) as [_ [n [Hl Hf]]].
    exists n. split; [rewrite Hl; unfold after_call; cbn [log]; now rewrite E | exact Hf].
  - inversion H; subst. exists []. split; [|constructor].
    unfold after_call. cbn [log app]. now rewrite E.
Qed.

End DrainerRequests.

(** X5: the list of container instances that [drain_instance] goes on to
    describe is the concatenation, in the order received, of every page
    the listing requests returned, and each of those requests was sent
    without a continuation token. *)
Theorem list_container_instances_keeps_every_page_received :
  forall aws fuel region cluster w arns w',
    list_container_instances aws fuel region cluster w = (Ok arns, w') ->
    exists new,
      log w' = new ++ log w
      /\ arns = pages_received (rev new)
      /\ Forall (is_first_page_request region cluster) new.
Proof.
  intros aws fuel region cluster w arns w' H.
  destruct (list_container_instances_emits aws fuel region cluster _ _ _ H)
    as [_ [new [Hl Hf]]].
  exists new. split; [exact Hl|]. split; [|exact Hf].
  unfold list_container_instances in H. unfold bind at 1, call at 1 in H.
  set (rq := ListContainerInstances region cluster None) in *.
  destruct (respond aws (log w) rq) as [p|e] eqn:E; [|discriminate H].
  destruct p as [|page tok| | | |]; try discriminate H.
  cbn [get_containerInstanceArns] in H. unfold bind at 1, ret at 1 in H.
  destruct (list_more_pages aws _ _ _ _ _ _ _ _ H) as [new' [Hl' Harns]].
  assert (Hnew : new = new' ++ [EvCall rq (Returned (PList page tok))]).
  { apply (app_inv_tail (log w)). rewrite <- Hl, Hl'.
    unfold after_call. cbn [log]. rewrite E. now rewrite <- app_assoc. }
  rewrite Hnew, rev_app_distr. cbn [rev app]. unfold rq. cbn [pages_received].
  exact Harns.
Qed.

Lemma list_container_instances_keeps_every_page_received_witness :
  exists new,
    log (after_call one_page (ListContainerInstances "us-east-1" "cluster" None) w0)
    = new ++ log w0
    /\ ["arn-1"] = pages_received (rev new)
    /\ Forall (is_first_page_request "us-east-1" "cluster") new.
Proof.
  apply (list_container_instances_keeps_every_page_received one_page 5 "us-east-1"
           "cluster" w0).
  reflexivity.
Defined.

(** X6: once the listing is done and the cluster's records are described,
    [drain_instance] sets to DRAINING the first record, in the order of
    the answer, whose instance id is the one asked for, and no other: the
    first event after the description is the DRAINING request for that
    record alone, and no further update follows. *)
Theorem drain_instance_drains_the_first_match_only :
  forall aws fuel id cluster region w arns w1 cis ci r w',
    list_container_instances aws fuel region cluster w = (Ok arns, w1) ->
    respond aws (log w1) (DescribeContainerInstances region cluster arns)
      = Returned (PContainers cis) ->
    find (fun i => (ec2InstanceId i =? id)%string) cis = Some ci ->
    drain_instance aws fuel id cluster region w = (r, w') ->
    let w2 := after_call aws (DescribeContainerInstances region cluster arns) w1 in
    let update := UpdateContainerInstancesState region cluster
                    [containerInstanceArn ci] "DRAINING" in
    ec2InstanceId ci = id
    /\ exists n,
         log w' = n ++ [EvCall update (respond aws (log w2) update)] ++ log w2
         /\ existsb is_update n = false.
Proof.
  intros aws fuel id cluster region w arns w1 cis ci r w' Hlist Hdesc Hfind H w2 update.
  split; [apply find_some in Hfind; now apply String.eqb_eq|].
  unfold drain_instance in H.
  rewrite (bind_Ok _ _ _ _ _ Hlist) in H.
  rewrite (bind_Ok _ _ _ _ _ (call_Returned aws _ _ _ Hdesc)) in H. fold w2 in H.
  cbn [get_containerInstances] in H. unfold bind at 1, ret at 1 in H.
  unfold bind at 1 in H.
  rewrite (for_loop_first_match aws fuel region cluster id cis ci w2 Hfind) in H.
  unfold bind at 1 2 in H.
  destruct (drain_found aws fuel region cluster ci w2) as [rf wf] eqn:Ef.
  destruct (drain_found_requests aws _ _ _ _ _ _ _ Ef) as [n [Hl Hf]].
  assert (Hw : w' = wf) by (destruct rf as [[]|e|]; now inversion H).
  subst w'. exists n. split; [exact Hl|].
  eapply existsb_false_of_Forall; [|exact Hf]. auto.
Qed.

Lemma drain_instance_drains_the_first_match_only_witness :
  exists n,
    log (snd (drain_instance busy_forever 20 "i-1" "cluster" "us-east-1" w0))
    = n ++ [EvCall (UpdateContainerInstancesState "us-east-1" "cluster" ["arn-1"] "DRAINING")
              (Returned (PUpdate []))]
        ++ log (after_call busy_forever
                  (DescribeContainerInstances "us-east-1" "cluster" ["arn-1"])
                  (after_call busy_forever
                     (ListContainerInstances "us-east-1" "cluster" None) w0))
    /\ existsb is_update n = false.
Proof.
  apply (drain_instance_drains_the_first_match_only busy_forever 20 "i-1" "cluster"
           "us-east-1" w0 ["arn-1"]
           (after_call busy_forever (ListContainerInstances "us-east-1" "cluster" None) w0)
           [mk_container_instance "i-1" "arn-1" 3]
           (mk_container_instance "i-1" "arn-1" 3)
           (fst (drain_instance busy_forever 20 "i-1" "cluster" "us-east-1" w0))
           (snd (drain_instance busy_forever 20 "i-1" "cluster" "us-east-1" w0))).
  - reflexivity.
  - reflexivity.
  - reflexivity.
  - vm_compute. reflexivity.
Defined.

(** ** Which failures stop a run *)

Section Failures.

Variable aws : Provider.

Lemma on_success_ret {A} P (a : A) : on_success P (ret a).
Proof. intros w a' w' H. inversion H; subst. now exists []. Qed.

Lemma on_success_raise {A} P e : on_success P (@raise A e).
Proof. intros w a w' H. discriminate H. Qed.

Lemma on_success_out_of_fuel {A} P : on_success P (@out_of_fuel A).
Proof. intros w a w' H. discriminate H. Qed.

Lemma on_success_of_emits {A} P (m : M A) : emits P m -> on_success P m.
Proof. intros Hm w a w' H. destruct (Hm _ _ _ H) as [_ Hnew]. exact Hnew. Qed.

Lemma on_success_bind {A B} P (m : M A) (k : A -> M B) :
  on_success P m -> (forall a, on_success P (k a)) -> on_success P (bind m k).
Proof.
  intros Hm Hk w b w' H. unfold bind in H.
  destruct (m w) as [[a|e|] w1] eqn:E; try discriminate H.
  destruct (Hm _ _ _ E) as [n1 [Hl1 Hf1]].
  destruct (Hk a _ _ _ H) as [n2 [Hl2 Hf2]].
  exists (n2 ++ n1). split; [now rewrite Hl2, Hl1, app_assoc|].
  apply Forall_app. now split.
Qed.

Lemma on_success_call P rq :
  (forall p, P (EvCall rq (Returned p))) -> on_success P (call aws rq).
Proof.
  intros HP w p w' H. unfold call in H.
  destruct (respond aws (log w) rq) as [p0|e] eqn:E; [|discriminate H].
  exists [EvCall rq (Returned p0)]. inversion H; subst.
  split; [unfold after_call; cbn [log app]; now rewrite E|].
  constructor; [apply HP | constructor].
Qed.

Lemma on_success_for_loop {A R} P (xs : list A) (body : A -> M (option R)) :
  (forall x, on_success P (body x)) -> on_success P (for_loop xs body).
Proof.
  intros Hb. induction xs as [|x xs IH]; cbn [for_loop].
  - apply on_success_ret.
  - apply on_success_bind; [apply Hb|].
    intros [v|]; [apply on_success_ret | exact IH].
Qed.

Lemma on_success_try_except {A} P (body : M A) (handler : exn -> M A) :
  emits P body -> (forall e, on_success P (handler e)) ->
  on_success P (try_except body handler).
Proof.
  intros Hb Hh w a w' H. unfold try_except in H.
  destruct (body w) as [[a0|e|] w1] eqn:E; try discriminate H.
  - inversion H; subst. destruct (Hb _ _ _ E) as [_ Hnew]. exact Hnew.
  - destruct (Hb _ _ _ E) as [_ [n1 [Hl1 Hf1]]].
    destruct (Hh e _ _ _ H) as [n2 [Hl2 Hf2]].
    exists (n2 ++ n1). split; [now rewrite Hl2, Hl1, app_assoc|].
    apply Forall_app. now split.
Qed.

Lemma get_groups_answered asg_name region :
  on_success answered (get_groups aws asg_name region).
Proof.
  unfold get_groups.
  apply on_success_bind; [apply on_success_call; intro; exact I|]. intros p.
  apply on_success_bind; [|intro; apply on_success_ret].
  destruct p; first [apply on_success_ret | apply on_success_raise].
Qed.

Lemma get_running_tasks_answered region cluster arn :
  on_success answered (get_running_tasks aws region cluster arn).
Proof.
  unfold get_running_tasks.
  apply on_success_bind; [apply on_success_call; intro; exact I|]. intros p.
  apply on_success_bind;
    [destruct p; first [apply on_success_ret | apply on_success_raise]|].
  intros cis. apply on_success_bind; [|intro; apply on_success_ret].
  destruct cis; [apply on_success_raise | apply on_success_ret].
Qed.

Lemma drain_wait_answered fuel region cluster arn end_time running_tasks :
  on_success answered (drain_wait aws fuel region cluster arn end_time running_tasks).
Proof.
  revert running_tasks. induction fuel as [|fuel IH]; intros rt; cbn [drain_wait];
    destruct (rt =? 0); try apply on_success_ret;
    (apply on_success_bind; [apply on_success_of_emits, emits_time_time|]);
    intros now; destruct (now <? end_time);
    try apply on_success_ret; try apply on_success_out_of_fuel.
  apply on_success_bind; [apply on_success_of_emits, emits_sleep; [lia | exact I]|].
  intros _.
  apply on_success_bind; [apply on_success_of_emits, emits_print; exact I|].
  intros _.
  apply on_success_bind; [apply get_running_tasks_answered|]. intros rt'. apply IH.
Qed.

Lemma drain_found_answered fuel region cluster ci :
  on_success answered (drain_found aws fuel region cluster ci).
Proof.
  unfold drain_found.
  apply on_success_bind; [apply on_success_call; intro; exact I|]. intros p.
  apply on_success_bind;
    [destruct p; first [apply on_success_ret | apply on_success_raise]|].
  intros fs. destruct fs; [|apply on_success_raise].
  apply on_success_bind; [apply get_running_tasks_answered|]. intros rt.
  apply on_success_bind; [apply on_success_of_emits, emits_time_time|]. intros now.
  cbv zeta.
  apply on_success_bind; [apply drain_wait_answered|]. intros _.
  apply on_success_bind; [apply on_success_of_emits, emits_time_time|]. intros now'.
  destruct (now + DRAIN_WAIT <? now');
    [apply on_success_of_emits, emits_print; exact I | apply on_success_ret].
Qed.

Lemma list_more_answered fuel region cluster response acc :
  on_success answered (list_more aws fuel region cluster response acc).
Proof.
  revert response acc. induction fuel as [|fuel IH]; intros response acc;
    cbn [list_more]; destruct (truthy (get_nextToken response));
    try apply on_success_ret; try apply on_success_out_of_fuel.
  apply on_success_bind; [apply on_success_call; intro; exact I|]. intros p.
  apply on_success_bind;
    [destruct p; first [apply on_success_ret | apply on_success_raise]|].
  intros arns. apply IH.
Qed.

Lemma drain_instance_answered fuel id cluster region :
  on_success answered (drain_instance aws fuel id cluster region).
Proof.
  unfold drain_instance, list_container_instances.
  apply on_success_bind.
  { apply on_success_bind; [apply on_success_call; intro; exact I|]. intros p.
    apply on_success_bind;
      [destruct p; first [apply on_success_ret | apply on_success_raise]|].
    intros arns. apply list_more_answered. }
  intros arns.
  apply on_success_bind; [apply on_success_call; intro; exact I|]. intros p.
  apply on_success_bind;
    [destruct p; first [apply on_success_ret | apply on_success_raise]|].
  intros cis. apply on_success_bind.
  - apply on_success_for_loop. intros ci.
    destruct (ec2InstanceId ci =? id)%string; [|apply on_success_ret].
    apply on_success_bind; [apply drain_found_answered | intro; apply on_success_ret].
  - intros [v|]; [apply on_success_ret | apply on_success_raise].
Qed.

Lemma wait_group_answered region info :
  on_success answered (wait_group aws region info).
Proof.
  destruct info as [capacity ids]. unfold wait_group.
  apply on_success_bind; [apply on_success_of_emits, emits_sleep; [lia | exact I]|].
  intros _. destruct (negb (len ids =? capacity)).
  - apply on_success_bind; [apply on_success_of_emits, emits_print; exact I|].
    intros _. apply on_success_ret.
  - apply on_success_bind; [apply on_success_of_emits, emits_print; exact I|].
    intros _. apply on_success_bind; [apply on_success_call; intro; exact I|].
    intros _. apply on_success_bind; [apply on_success_of_emits, emits_print; exact I|].
    intros _. apply on_success_ret.
Qed.

Lemma wait_loop_answered fuel asg_name region end_time :
  on_success answered (wait_loop aws fuel asg_name region end_time).
Proof.
  induction fuel as [|fuel IH]; cbn [wait_loop];
    (apply on_success_bind; [apply on_success_of_emits, emits_time_time|]);
    intros now; destruct (now <? end_time);
    try apply on_success_ret; try apply on_success_out_of_fuel.
  apply on_success_bind; [apply get_groups_answered|]. intros infos.
  apply on_success_bind; [apply on_success_for_loop; intro; apply wait_group_answered|].
  intros [v|]; [apply on_success_ret | exact IH].
Qed.

Lemma wait_for_running_answered fuel asg_name region timeout :
  on_success answered (wait_for_running aws fuel asg_name region timeout).
Proof.
  unfold wait_for_running.
  apply on_success_bind; [apply on_success_of_emits, emits_time_time|]. intros now.
  apply on_success_bind; [apply on_success_of_emits, emits_print; exact I|].
  intros _. apply wait_loop_answered.
Qed.

Lemma on_success_weaken {A} (P Q : event -> Prop) (m : M A) :
  (forall ev, P ev -> Q ev) -> on_success P m -> on_success Q m.
Proof.
  intros HPQ Hm w a w' H. destruct (Hm _ _ _ H) as [n [Hl Hf]].
  exists n. split; [exact Hl|]. eapply Forall_impl; [exact HPQ | exact Hf].
Qed.

Lemma answered_outside_try_of_answered ev : answered ev -> answered_outside_try ev.
Proof.
  destruct ev as [rq rs|s|m]; cbn; auto.
  destruct rs as [p|e]; [destruct rq; auto | contradiction].
Qed.

Lemma terminate_step_answered_outside_try region id :
  on_success answered_outside_try (terminate_step aws region id).
Proof.
  unfold terminate_step. apply on_success_try_except.
  - unfold terminate_and_wait.
    apply emits_bind; [apply emits_print; exact I|]. intros _.
    apply emits_bind; [apply emits_call; intros [p|e]; exact I|]. intros _.
    apply emits_bind; [apply emits_sleep; [lia | exact I]|]. intros _.
    apply emits_bind; [apply emits_call; intros [p|e]; exact I|]. intros _.
    apply emits_bind; [apply emits_print; exact I|]. intros _. apply emits_ret.
  - intros e. unfold terminate_handler.
    apply on_success_bind; [apply on_success_call; intro; exact I|]. intros p.
    apply on_success_bind; [apply on_success_of_emits, emits_print; exact I|].
    intros _.
    apply on_success_bind;
      [destruct p; first [apply on_success_ret | apply on_success_raise]|].
    intros rs.
    apply on_success_bind; [destruct rs; [apply on_success_raise | apply on_success_ret]|].
    intros r0.
    apply on_success_bind;
      [destruct (Reservation_Instances r0);
       [apply on_success_raise | apply on_success_ret]|].
    intros i0. destruct (State_Name i0 =? "terminated")%string;
      [apply on_success_ret | apply on_success_raise].
Qed.

Lemma restart_all_answered_outside_try fuel asg_name region ecs_cluster :
  on_success answered_outside_try (restart_all aws fuel asg_name region ecs_cluster).
Proof.
  unfold restart_all.
  apply on_success_bind.
  { eapply on_success_weaken;
      [exact answered_outside_try_of_answered | apply get_groups_answered]. }
  intros infos. apply on_success_bind; [|intro; apply on_success_ret].
  apply on_success_for_loop. intros [capacity ids]. unfold restart_group.
  apply on_success_bind; [apply on_success_of_emits, emits_print; exact I|]. intros _.
  apply on_success_for_loop. intros [idx id]. unfold restart_instance.
  apply on_success_bind.
  { unfold drain_step, print_sep.
    apply on_success_bind; [apply on_success_of_emits, emits_print; exact I|].
    intros _. destruct ecs_cluster as [cluster|]; [|apply on_success_ret].
    destruct (truthy (Some cluster)); [|apply on_success_ret].
    apply on_success_bind; [apply on_success_of_emits, emits_print; exact I|].
    intros _. apply on_success_bind;
      [|intro; apply on_success_of_emits, emits_print; exact I].
    eapply on_success_weaken;
      [exact answered_outside_try_of_answered | apply drain_instance_answered]. }
  intros _.
  apply on_success_bind; [apply terminate_step_answered_outside_try|].
  intros [|]; [|apply on_success_ret].
  apply on_success_bind.
  { eapply on_success_weaken;
      [exact answered_outside_try_of_answered | apply wait_for_running_answered]. }
  intros _. apply on_success_bind; [|intro; apply on_success_ret].
  apply on_success_of_emits, emits_print. exact I.
Qed.

End Failures.

(** X7: [drain_instance], [wait_for_running] and [get_groups] hold no
    exception handler: each of them returns normally only if every
    provider call it made was answered.  A listing, description, update
    or health-check wait that raises always ends them with an exception. *)
Theorem components_return_only_if_every_call_was_answered :
  forall aws fuel,
    (forall id cluster region w w',
        drain_instance aws fuel id cluster region w = (Ok tt, w') ->
        exists new, log w' = new ++ log w /\ Forall answered new)
    /\ (forall asg_name region timeout w w',
          wait_for_running aws fuel asg_name region timeout w = (Ok tt, w') ->
          exists new, log w' = new ++ log w /\ Forall answered new)
    /\ (forall asg_name region w group_info w',
          get_groups aws asg_name region w = (Ok group_info, w') ->
          exists new, log w' = new ++ log w /\ Forall answered new).
Proof.
  intros aws fuel. split; [|split].
  - intros id cluster region w w' H.
    exact (drain_instance_answered aws fuel id cluster region _ _ _ H).
  - intros asg_name region timeout w w' H.
    exact (wait_for_running_answered aws fuel asg_name region timeout _ _ _ H).
  - intros asg_name region w group_info w' H.
    exact (get_groups_answered aws asg_name region _ _ _ H).
Qed.

Lemma components_return_only_if_every_call_was_answered_witness :
  exists new,
    log (snd (drain_instance busy_forever 20 "i-1" "cluster" "us-east-1" w0))
    = new ++ log w0
    /\ Forall answered new.
Proof.
  apply (proj1 (components_return_only_if_every_call_was_answered busy_forever 20)
           "i-1" "cluster" "us-east-1" w0).
  vm_compute. reflexivity.
Defined.

(** X8: the [try] statement of [restart_all] is the only place where a
    provider failure can be passed over: in a rotation that returns
    normally, every provider call that raised is a termination request or
    a wait for a termination. *)
Theorem restart_all_passes_over_termination_failures_only :
  forall aws fuel asg_name region ecs_cluster w w',
    restart_all aws fuel asg_name region ecs_cluster w = (Ok tt, w') ->
    exists new, log w' = new ++ log w /\ Forall answered_outside_try new.
Proof.
  intros aws fuel asg_name region ecs_cluster w w' H.
  exact (restart_all_answered_outside_try aws fuel asg_name region ecs_cluster _ _ _ H).
Qed.

Lemma restart_all_passes_over_termination_failures_only_witness :
  exists new,
    log (snd (restart_all flaky_wait 30 "web-asg" "us-east-1" None w0)) = new ++ log w0
    /\ Forall answered_outside_try new
    /\ In (EvCall (WaitInstanceTerminated "us-east-1" ["i-1"])
             (Raised (WaiterError "Max attempts exceeded"))) new.
Proof.
  destruct (restart_all_passes_over_termination_failures_only flaky_wait 30 "web-asg"
              "us-east-1" None w0
              (snd (restart_all flaky_wait 30 "web-asg" "us-east-1" None w0)))
    as [new [Hl Hf]].
  - vm_compute. reflexivity.
  - exists new. split; [exact Hl|]. split; [exact Hf|].
    cbn [log w0] in Hl. rewrite app_nil_r in Hl. rewrite <- Hl.
    vm_compute. tauto.
Defined.

(** X9: when the provider reports failures for the DRAINING request,
    [drain_instance] raises an exception that carries them, straight
    after that request: the running tasks are not read and nothing is
    waited for. *)
Theorem drain_request_failures_are_fatal :
  forall aws fuel id cluster region w arns w1 cis ci failure failures,
    list_container_instances aws fuel region cluster w = (Ok arns, w1) ->
    respond aws (log w1) (DescribeContainerInstances region cluster arns)
      = Returned (PContainers cis) ->
    find (fun i => (ec2InstanceId i =? id)%string) cis = Some ci ->
    let w2 := after_call aws (DescribeContainerInstances region cluster arns) w1 in
    let update := UpdateContainerInstancesState region cluster
                    [containerInstanceArn ci] "DRAINING" in
    respond aws (log w2) update = Returned (PUpdate (failure :: failures)) ->
    drain_instance aws fuel id cluster region w
    = (Raise (PyException ("Failed to drain: " ++ repr_list (failure :: failures))%string),
       after_call aws update w2).
Proof.
  intros aws fuel id cluster region w arns w1 cis ci failure failures
         Hlist Hdesc Hfind w2 update Hupd.
  unfold drain_instance.
  rewrite (bind_Ok _ _ _ _ _ Hlist).
  rewrite (bind_Ok _ _ _ _ _ (call_Returned aws _ _ _ Hdesc)). fold w2.
  cbn [get_containerInstances]. unfold bind at 1, ret at 1. unfold bind at 1.
  rewrite (for_loop_first_match aws fuel region cluster id cis ci w2 Hfind).
  assert (Hfound : drain_found aws fuel region cluster ci w2
                   = (Raise (PyException
                               ("Failed to drain: " ++ repr_list (failure :: failures))%string),
                      after_call aws update w2)).
  { unfold drain_found. fold update.
    now rewrite (bind_Ok _ _ _ _ _ (call_Returned aws _ _ _ Hupd)). }
  now rewrite (bind_Raise _ _ _ _ _ (bind_Raise _ _ _ _ _ Hfound)).
Qed.

Lemma drain_request_failures_are_fatal_witness :
  drain_instance drain_rejected 20 "i-1" "cluster" "us-east-1" w0
  = (Raise (PyException "Failed to drain: [{'arn': 'arn-1', 'reason': 'INACTIVE'}]"),
     after_call drain_rejected
       (UpdateContainerInstancesState "us-east-1" "cluster" ["arn-1"] "DRAINING")
       (after_call drain_rejected
          (DescribeContainerInstances "us-east-1" "cluster" ["arn-1"])
          (after_call drain_rejected
             (ListContainerInstances "us-east-1" "cluster" None) w0))).
Proof.
  apply (drain_request_failures_are_fatal drain_rejected 20 "i-1" "cluster" "us-east-1"
           w0 ["arn-1"]
           (after_call drain_rejected (ListContainerInstances "us-east-1" "cluster" None) w0)
           [mk_container_instance "i-1" "arn-1" 3]
           (mk_container_instance "i-1" "arn-1" 3)
           "{'arn': 'arn-1', 'reason': 'INACTIVE'}" []);
    reflexivity.
Defined.

(** X10: whatever makes [drain_instance] raise for a member, the
    exception leaves the member loop unchanged and at once: the member is
    not terminated, no termination request having been sent since its
    turn began, and the members after it are not touched. *)
Theorem drain_failure_ends_rotation_before_termination :
  forall aws fuel asg_name region cluster total idx id rest w e w2,
    cluster <> "" ->
    drain_instance aws fuel id cluster region
      (after_print (MsgDraining id) (after_print MsgSep w)) = (Raise e, w2) ->
    for_loop ((idx, id) :: rest)
      (restart_instance aws fuel asg_name region (Some cluster) total) w
    = (Raise e, w2)
    /\ exists new, log w2 = new ++ log w /\ existsb is_terminate new = false.
Proof.
  intros aws fuel asg_name region cluster total idx id rest w e w2 Hcl Hdrain.
  split.
  - assert (Hstep : drain_step aws fuel region (Some cluster) id w = (Raise e, w2)).
    { unfold drain_step, print_sep.
      rewrite (bind_Ok _ _ _ _ _ (print_run MsgSep w)).
      assert (Ht : truthy (Some cluster) = true)
        by (simpl; apply negb_true_iff, String.eqb_neq, Hcl).
      rewrite Ht.
      rewrite (bind_Ok _ _ _ _ _ (print_run (MsgDraining id) _)).
      now rewrite (bind_Raise _ _ _ _ _ Hdrain). }
    cbn [for_loop]. apply bind_Raise.
    unfold restart_instance. now apply bind_Raise.
  - destruct (drain_instance_no_terminate aws fuel id cluster region _ _ _ Hdrain)
      as [_ [new [Hl Hf]]].
    exists (new ++ [EvPrint (MsgDraining id); EvPrint MsgSep]).
    split; [rewrite Hl; cbn [after_print log]; now rewrite <- app_assoc|].
    rewrite existsb_app. cbn. rewrite orb_false_r.
    eapply existsb_false_of_Forall; [|exact Hf]. auto.
Qed.

Lemma drain_failure_ends_rotation_before_termination_witness :
  fst (for_loop [(0%nat, "i-1"); (1%nat, "i-2")]
         (restart_instance drain_rejected 20 "web-asg" "us-east-1" (Some "cluster") 2) w0)
  = Raise (PyException "Failed to drain: [{'arn': 'arn-1', 'reason': 'INACTIVE'}]").
Proof.
  destruct (drain_failure_ends_rotation_before_termination drain_rejected 20 "web-asg"
              "us-east-1" "cluster" 2 0 "i-1" [(1%nat, "i-2")] w0
              (PyException "Failed to drain: [{'arn': 'arn-1', 'reason': 'INACTIVE'}]")
              (snd (drain_instance drain_rejected 20 "i-1" "cluster" "us-east-1"
                      (after_print (MsgDraining "i-1") (after_print MsgSep w0)))))
    as [Hloop _].
  - discriminate.
  - reflexivity.
  - rewrite Hloop. reflexivity.
Defined.

(** ** Capacity Waiter: how a call ends *)

Section WaitOutcome.

Variable aws : Provider.

Lemma wait_group_outcome region capacity ids w r w' :
  wait_group aws region (capacity, ids) w = (r, w') ->
  let waiter := WaitInstanceStatusOk region ids 100 15 in
  (r = Ok None
   /\ log w' = [EvPrint (MsgFoundRunning (length ids) capacity); EvSleep 30] ++ log w)
  \/ (exists p,
        r = Ok (Some tt)
        /\ log w' = EvPrint (MsgFoundHealthy (length ids))
                    :: EvCall waiter (Returned p)
                    :: [EvPrint (MsgWaitingHealthy (length ids)); EvSleep 30] ++ log w)
  \/ (exists e,
        r = Raise e
        /\ log w' = EvCall waiter (Raised e)
                    :: [EvPrint (MsgWaitingHealthy (length ids)); EvSleep 30] ++ log w).
Proof.
  intros H waiter. unfold wait_group in H. unfold bind at 1, sleep at 1 in H.
  destruct (negb (len ids =? capacity)).
  - left. unfold bind, print, ret in H. inversion H; subst. now split.
  - unfold bind at 1, print at 1 in H. cbn [clock log] in H.
    unfold bind at 1, call at 1 in H. cbn [log] in H. fold waiter in H.
    destruct (respond aws
                (EvPrint (MsgWaitingHealthy (length ids)) :: EvSleep 30 :: log w) waiter)
      as [p|e] eqn:E.
    + right. left. exists p. unfold bind, print, ret in H. inversion H; subst.
      split; [reflexivity|]. unfold after_call. cbn [log]. now rewrite E.
    + right. right. exists e. inversion H; subst.
      split; [reflexivity|]. unfold after_call. cbn [log]. now rewrite E.
Qed.

(** The three ways the [for] loop of lines 120-131 ends. *)
Lemma wait_groups_outcome region infos w r w' :
  for_loop infos (wait_group aws region) w = (r, w') ->
  exists new,
    log w' = new ++ log w
    /\ ((r = Ok None /\ existsb is_health_wait new = false)
        \/ (exists ids p pre,
              r = Ok (Some tt)
              /\ new = EvPrint (MsgFoundHealthy (length ids))
                       :: EvCall (WaitInstanceStatusOk region ids 100 15) (Returned p)
                       :: pre
              /\ existsb is_health_wait pre = false)
        \/ (exists ids e pre,
              r = Raise e
              /\ new = EvCall (WaitInstanceStatusOk region ids 100 15) (Raised e) :: pre
              /\ existsb is_health_wait pre = false)).
Proof.
  revert w. induction infos as [|[capacity ids] infos IH]; intros w H.
  - inversion H; subst. exists []. split; [reflexivity|]. left. now split.
  - cbn [for_loop] in H. unfold bind at 1 in H.
    destruct (wait_group aws region (capacity, ids) w) as [r1 w1] eqn:E1.
    destruct (wait_group_outcome region capacity ids w r1 w1 E1)
      as [[-> Hl1]|[[p [-> Hl1]]|[e [-> Hl1]]]].
    + destruct (IH _ H) as [n2 [Hl2 Hout]].
      exists (n2 ++ [EvPrint (MsgFoundRunning (length ids) capacity); EvSleep 30]).
      split; [rewrite Hl2, Hl1; now rewrite <- app_assoc|].
      destruct Hout as [[-> Hn]|[[ids' [p [pre [-> [-> Hn]]]]]|[ids' [e [pre [-> [-> Hn]]]]]]].
      * left. split; [reflexivity|]. rewrite existsb_app, Hn. reflexivity.
      * right. left. exists ids', p, (pre ++ [EvPrint (MsgFoundRunning (length ids) capacity);
                                              EvSleep 30]).
        repeat split. rewrite existsb_app, Hn. reflexivity.
      * right. right. exists ids', e, (pre ++ [EvPrint (MsgFoundRunning (length ids) capacity);
                                               EvSleep 30]).
        repeat split. rewrite existsb_app, Hn. reflexivity.
    + inversion H; subst.
      exists (EvPrint (MsgFoundHealthy (length ids))
              :: EvCall (WaitInstanceStatusOk region ids 100 15) (Returned p)
              :: [EvPrint (MsgWaitingHealthy (length ids)); EvSleep 30]).
      split; [exact Hl1|].
      right. left. exists ids, p, [EvPrint (MsgWaitingHealthy (length ids)); EvSleep 30].
      repeat split.
    + inversion H; subst.
      exists (EvCall (WaitInstanceStatusOk region ids 100 15) (Raised e)
              :: [EvPrint (MsgWaitingHealthy (length ids)); EvSleep 30]).
      split; [exact Hl1|].
      right. right. exists ids, e, [EvPrint (MsgWaitingHealthy (length ids)); EvSleep 30].
      repeat split.
Qed.

Lemma get_groups_no_health_wait asg_name region :
  emits (fun ev => is_health_wait ev = false) (get_groups aws asg_name region).
Proof. apply get_groups_emits. reflexivity. Qed.

Lemma wait_loop_outcome fuel asg_name region end_time w r w' :
  wait_loop aws fuel asg_name region end_time w = (r, w') ->
  exists new,
    log w' = new ++ log w
    /\ ((existsb is_health_wait new = false /\ (r = Ok tt -> end_time <= clock w'))
        \/ (exists ids p pre,
              r = Ok tt
              /\ new = EvPrint (MsgFoundHealthy (length ids))
                       :: EvCall (WaitInstanceStatusOk region ids 100 15) (Returned p)
                       :: pre
              /\ existsb is_health_wait pre = false)
        \/ (exists ids e pre,
              r = Raise e
              /\ new = EvCall (WaitInstanceStatusOk region ids 100 15) (Raised e) :: pre
              /\ existsb is_health_wait pre = false)).
Proof.
  revert w. induction fuel as [|fuel IH]; intros w H;
    cbn [wait_loop] in H; unfold bind at 1, time_time at 1 in H;
    destruct (Z.ltb_spec (clock w) end_time) as [Hlt|Hge];
    try (inversion H; subst; exists []; split; [reflexivity|]; left;
         split; [reflexivity | intros; first [lia | discriminate]]).
  unfold bind at 1 in H.
  destruct (get_groups aws asg_name region w) as [rg wg] eqn:Eg.
  destruct (get_groups_no_health_wait asg_name region _ _ _ Eg) as [_ [ng [Hlg Hfg]]].
  assert (Hng : existsb is_health_wait ng = false)
    by (eapply existsb_false_of_Forall; [|exact Hfg]; auto).
  destruct rg as [infos|e|].
  2,3: inversion H; subst; exists ng; (split; [exact Hlg|]); left;
       (split; [exact Hng | discriminate]).
  unfold bind at 1 in H.
  destruct (for_loop infos (wait_group aws region) wg) as [rl wl] eqn:El.
  destruct (wait_groups_outcome region infos _ _ _ El) as [nl [Hll Hout]].
  destruct Hout as [[-> Hn]|[[ids [p [pre [-> [-> Hn]]]]]|[ids [e [pre [-> [-> Hn]]]]]]].
  - destruct (IH _ H) as [n [Hl Hrest]].
    exists (n ++ nl ++ ng).
    split; [rewrite Hl, Hll, Hlg; now rewrite <- !app_assoc|].
    assert (Hmid : existsb is_health_wait (nl ++ ng) = false)
      by (rewrite existsb_app, Hn, Hng; reflexivity).
    destruct Hrest as [[Hn' Hend]|[[ids [p [pre [-> [-> Hn']]]]]|[ids [e [pre [-> [-> Hn']]]]]]].
    + left. split; [|exact Hend]. rewrite existsb_app, Hn', Hmid. reflexivity.
    + right. left. exists ids, p, (pre ++ nl ++ ng). repeat split.
      rewrite existsb_app, Hn', Hmid. reflexivity.
    + right. right. exists ids, e, (pre ++ nl ++ ng). repeat split.
      rewrite existsb_app, Hn', Hmid. reflexivity.
  - inversion H; subst.
    exists ((EvPrint (MsgFoundHealthy (length ids))
             :: EvCall (WaitInstanceStatusOk region ids 100 15) (Returned p) :: pre) ++ ng).
    split; [rewrite Hll, Hlg; now rewrite <- app_assoc|].
    right. left. exists ids, p, (pre ++ ng). repeat split.
    rewrite existsb_app, Hn, Hng. reflexivity.
  - inversion H; subst.
    exists ((EvCall (WaitInstanceStatusOk region ids 100 15) (Raised e) :: pre) ++ ng).
    split; [rewrite Hll, Hlg; now rewrite <- app_assoc|].
    right. right. exists ids, e, (pre ++ ng). repeat split.
    rewrite existsb_app, Hn, Hng. reflexivity.
Qed.

Lemma wait_loop_empty_answers asg_name region end_time fuel w r w' :
  (forall h, extends h (log w) ->
     respond aws h (DescribeAutoScalingGroups region [asg_name]) = Returned (PGroups [])) ->
  wait_loop aws fuel asg_name region end_time w = (r, w') ->
  exists k,
    log w' = repeat (EvCall (DescribeAutoScalingGroups region [asg_name])
                       (Returned (PGroups []))) k ++ log w
    /\ (r = Ok tt /\ end_time <= clock w' \/ r = OutOfFuel /\ k = fuel).
Proof.
  revert w. induction fuel as [|fuel IH]; intros w Hempty H;
    cbn [wait_loop] in H; unfold bind at 1, time_time at 1 in H;
    destruct (Z.ltb_spec (clock w) end_time) as [Hlt|Hge];
    try (inversion H; subst; exists 0%nat; split; [reflexivity|]; tauto).
  set (rq := DescribeAutoScalingGroups region [asg_name]) in *.
  pose proof (Hempty (log w) (extends_refl _)) as Hresp.
  rewrite (bind_Ok _ _ _ _ _ (get_groups_Returned aws _ _ _ _ Hresp)) in H.
  cbn [map for_loop] in H. unfold bind at 1, ret at 1 in H.
  fold rq in H.
  assert (Hl1 : log (after_call aws rq w) = [EvCall rq (Returned (PGroups []))] ++ log w)
    by (unfold after_call; cbn [log app]; now rewrite Hresp).
  destruct (IH (after_call aws rq w)) with (2 := H) as [k [Hl Hout]].
  - intros h Hh. apply Hempty. eapply extends_trans; [exact Hh|].
    eexists. exact Hl1.
  - exists (S k). split.
    + rewrite Hl, Hl1. cbn [app].
      change (EvCall rq (Returned (PGroups [])) :: log w)
        with ([EvCall rq (Returned (PGroups []))] ++ log w).
      rewrite app_assoc. f_equal.
      rewrite <- repeat_cons. reflexivity.
    + destruct Hout as [Hok|[Hoof ->]]; [left; exact Hok | right; now split].
Qed.

End WaitOutcome.

(** X11: a call of [wait_for_running] starts at most one health-check
    wait, and that wait decides how the call ends.  Either no health-check
    wait was started, and then a normal return means that the clock has
    reached the deadline; or the last provider call is a health-check
    wait that succeeded, followed only by the report of healthy instances,
    and the call returns normally; or the last event is a health-check
    wait that raised, and the call raises the same exception, without
    another try even when the deadline is still ahead. *)
Theorem wait_for_running_ends_with_its_health_check :
  forall aws fuel asg_name region timeout w r w',
    wait_for_running aws fuel asg_name region timeout w = (r, w') ->
    exists new,
      log w' = new ++ log w
      /\ ((existsb is_health_wait new = false
           /\ (r = Ok tt -> clock w + timeout * 60 <= clock w'))
          \/ (exists ids p pre,
                r = Ok tt
                /\ new = EvPrint (MsgFoundHealthy (length ids))
                         :: EvCall (WaitInstanceStatusOk region ids 100 15) (Returned p)
                         :: pre
                /\ existsb is_health_wait pre = false)
          \/ (exists ids e pre,
                r = Raise e
                /\ new = EvCall (WaitInstanceStatusOk region ids 100 15) (Raised e) :: pre
                /\ existsb is_health_wait pre = false)).
Proof.
  intros aws fuel asg_name region timeout w r w' H.
  unfold wait_for_running in H. unfold bind at 1, time_time at 1 in H.
  rewrite (bind_Ok _ _ _ _ _ (print_run _ _)) in H.
  destruct (wait_loop_outcome aws _ _ _ _ _ _ _ H) as [n [Hl Hout]].
  exists (n ++ [EvPrint (MsgWaitingNew asg_name)]).
  split; [rewrite Hl; cbn [after_print log]; now rewrite <- app_assoc|].
  destruct Hout as [[Hn Hend]|[[ids [p [pre [-> [-> Hn]]]]]|[ids [e [pre [-> [-> Hn]]]]]]].
  - left. split; [rewrite existsb_app, Hn; reflexivity | exact Hend].
  - right. left. exists ids, p, (pre ++ [EvPrint (MsgWaitingNew asg_name)]).
    repeat split. rewrite existsb_app, Hn. reflexivity.
  - right. right. exists ids, e, (pre ++ [EvPrint (MsgWaitingNew asg_name)]).
    repeat split. rewrite existsb_app, Hn. reflexivity.
Qed.

Lemma wait_for_running_ends_with_its_health_check_witness :
  exists new,
    log (snd (wait_for_running never_healthy 20 "web-asg" "us-east-1" 10 w0))
    = new ++ log w0
    /\ exists pre,
         new = EvCall (WaitInstanceStatusOk "us-east-1" ["i-1"; "i-2"] 100 15)
                 (Raised (WaiterError "Max attempts exceeded")) :: pre.
Proof.
  destruct (wait_for_running_ends_with_its_health_check never_healthy 20 "web-asg"
              "us-east-1" 10 w0
              (fst (wait_for_running never_healthy 20 "web-asg" "us-east-1" 10 w0))
              (snd (wait_for_running never_healthy 20 "web-asg" "us-east-1" 10 w0)))
    as [new [Hl _]].
  - vm_compute. reflexivity.
  - exists new. split; [exact Hl|].
    cbn [log w0] in Hl. rewrite app_nil_r in Hl. rewrite <- Hl.
    vm_compute. eexists. reflexivity.
Defined.

(** X12: when the provider lists no group under the name, the loop of
    [wait_for_running] holds no sleep: until the deadline it describes the
    group again and again with nothing in between, so the log of the call
    is its opening line followed by descriptions only, and a normal return
    comes only with the clock at the deadline. *)
Theorem wait_for_running_polls_without_pause_when_no_group :
  forall aws fuel asg_name region timeout w r w',
    (forall h, extends h (log w) ->
       respond aws h (DescribeAutoScalingGroups region [asg_name])
       = Returned (PGroups [])) ->
    wait_for_running aws fuel asg_name region timeout w = (r, w') ->
    exists k,
      log w' = repeat (EvCall (DescribeAutoScalingGroups region [asg_name])
                         (Returned (PGroups []))) k
               ++ EvPrint (MsgWaitingNew asg_name) :: log w
      /\ (r = Ok tt /\ clock w + timeout * 60 <= clock w' \/ r = OutOfFuel /\ k = fuel).
Proof.
  intros aws fuel asg_name region timeout w r w' Hempty H.
  unfold wait_for_running in H. unfold bind at 1, time_time at 1 in H.
  rewrite (bind_Ok _ _ _ _ _ (print_run _ _)) in H.
  apply (wait_loop_empty_answers aws asg_name region (clock w + timeout * 60) fuel
           (after_print (MsgWaitingNew asg_name) w) r w'); [|exact H].
  intros h Hh. apply Hempty. eapply extends_trans; [exact Hh|].
  now exists [EvPrint (MsgWaitingNew asg_name)].
Qed.

Lemma wait_for_running_polls_without_pause_when_no_group_witness :
  exists k,
    log (snd (wait_for_running no_such_group_slow 700 "web-asg" "us-east-1" 10 w0))
    = repeat (EvCall (DescribeAutoScalingGroups "us-east-1" ["web-asg"])
                (Returned (PGroups []))) k
      ++ EvPrint (MsgWaitingNew "web-asg") :: log w0
    /\ (fst (wait_for_running no_such_group_slow 700 "web-asg" "us-east-1" 10 w0) = Ok tt
        /\ clock w0 + 10 * 60
           <= clock (snd (wait_for_running no_such_group_slow 700 "web-asg" "us-east-1" 10 w0))
        \/ fst (wait_for_running no_such_group_slow 700 "web-asg" "us-east-1" 10 w0)
           = OutOfFuel /\ k = 700%nat).
Proof.
  apply (wait_for_running_polls_without_pause_when_no_group no_such_group_slow 700
           "web-asg" "us-east-1" 10 w0).
  - intros h _. reflexivity.
  - vm_compute. reflexivity.
Defined.

(** ** Rotation Controller: the grace delay *)

Section GraceDelay.

Variable aws : Provider.

Lemma grace_app (new l : list event) :
  Forall (fun ev => is_termination_wait ev = false) new ->
  termination_waits_after_grace l ->
  termination_waits_after_grace (new ++ l).
Proof.
  intros Hf Hl. induction Hf as [|ev new Hev _ IH]; [exact Hl|].
  destruct ev as [rq rs|s|m]; cbn; [|exact IH|exact IH].
  destruct rq; cbn; try exact IH. discriminate Hev.
Qed.

Lemma keeps_grace_of_emits {A} (m : M A) :
  emits (fun ev => is_termination_wait ev = false) m -> keeps_grace m.
Proof.
  intros Hm w r w' H Hinv. destruct (Hm _ _ _ H) as [_ [new [Hl Hf]]].
  rewrite Hl. now apply grace_app.
Qed.

Lemma keeps_grace_bind {A B} (m : M A) (k : A -> M B) :
  keeps_grace m -> (forall a, keeps_grace (k a)) -> keeps_grace (bind m k).
Proof.
  intros Hm Hk w r w' H Hinv. unfold bind in H.
  destruct (m w) as [[a|e|] w1] eqn:E.
  - eapply Hk; [exact H|]. eapply Hm; eassumption.
  - inversion H; subst. eapply Hm; eassumption.
  - inversion H; subst. eapply Hm; eassumption.
Qed.

Lemma keeps_grace_for_loop {A R} (xs : list A) (body : A -> M (option R)) :
  (forall x, keeps_grace (body x)) -> keeps_grace (for_loop xs body).
Proof.
  intros Hb. induction xs as [|x xs IH]; cbn [for_loop].
  - apply keeps_grace_of_emits, emits_ret.
  - apply keeps_grace_bind; [apply Hb|].
    intros [v|]; [apply keeps_grace_of_emits, emits_ret | exact IH].
Qed.

Lemma terminate_handler_emits P region id e :
  (forall rs, P (EvCall (DescribeInstances region [id]) rs)) ->
  (forall p, P (EvPrint (MsgPPrint p))) ->
  emits P (terminate_handler aws region id e).
Proof.
  intros Hcall Hprint. unfold terminate_handler.
  apply emits_bind; [now apply emits_call|]. intros p.
  apply emits_bind; [now apply emits_print|]. intros _.
  apply emits_bind; [apply emits_get_Reservations|]. intros rs.
  apply emits_bind; [apply emits_index0|]. intros r0.
  apply emits_bind; [apply emits_index0|]. intros i0.
  destruct (State_Name i0 =? "terminated")%string; [apply emits_ret | apply emits_raise].
Qed.

Lemma terminate_step_keeps_grace region id :
  keeps_grace (terminate_step aws region id).
Proof.
  assert (Hh : forall e, keeps_grace (terminate_handler aws region id e))
    by (intros e; apply keeps_grace_of_emits, terminate_handler_emits; reflexivity).
  intros w r w' H Hinv.
  unfold terminate_step, try_except, terminate_and_wait in H.
  rewrite (bind_Ok _ _ _ _ _ (print_run _ _)) in H.
  set (w1 := after_print (MsgTerminating id) w) in *.
  set (rq := TerminateInstances region [id]) in *.
  unfold bind at 1, call at 1 in H.
  destruct (respond aws (log w1) rq) as [p|e] eqn:E.
  - unfold bind at 1, sleep at 1 in H.
    unfold bind at 1, call at 1 in H. cbn [log] in H.
    set (wt := WaitInstanceTerminated region [id]) in *.
    set (w3 := mkWorld (clock (after_call aws rq w1) + 10)
                 (EvSleep 10 :: log (after_call aws rq w1))) in *.
    assert (Hinv4 : termination_waits_after_grace (log (after_call aws wt w3))).
    { unfold after_call at 1. cbn [log]. unfold wt at 1.
      cbn [termination_waits_after_grace]. split.
      - unfold w3, after_call. cbn [log]. rewrite E. unfold rq. eexists _, _. reflexivity.
      - unfold w3, after_call. cbn [log]. unfold rq at 1.
        cbn [termination_waits_after_grace]. exact Hinv. }
    fold w3 in H.
    destruct (respond aws (EvSleep 10 :: log (after_call aws rq w1)) wt) as [p'|e'] eqn:E'.
    + unfold bind, print, ret in H. inversion H; subst. exact Hinv4.
    + eapply Hh; [exact H | exact Hinv4].
  - eapply Hh; [exact H|]. unfold after_call. cbn [log]. exact Hinv.
Qed.

Lemma restart_all_keeps_grace fuel asg_name region ecs_cluster :
  keeps_grace (restart_all aws fuel asg_name region ecs_cluster).
Proof.
  unfold restart_all.
  apply keeps_grace_bind;
    [apply keeps_grace_of_emits, get_groups_emits; reflexivity|].
  intros infos. apply keeps_grace_bind; [|intro; apply keeps_grace_of_emits, emits_ret].
  apply keeps_grace_for_loop. intros [capacity ids]. unfold restart_group.
  apply keeps_grace_bind; [apply keeps_grace_of_emits; now apply emits_print|].
  intros _. apply keeps_grace_for_loop. intros [idx id]. unfold restart_instance.
  apply keeps_grace_bind.
  { apply keeps_grace_of_emits. unfold drain_step, print_sep.
    apply emits_bind; [now apply emits_print|]. intros _.
    destruct ecs_cluster as [cluster|]; [|apply emits_ret].
    destruct (truthy (Some cluster)); [|apply emits_ret].
    apply emits_bind; [now apply emits_print|]. intros _.
    apply emits_bind; [|intros _; now apply emits_print].
    eapply emits_weaken; [|apply drain_instance_footprint].
    intros [rq rs|s|m] Hev; [destruct rq; cbn in *; first [reflexivity | tauto]
                            | reflexivity | reflexivity]. }
  intros _. apply keeps_grace_bind; [apply terminate_step_keeps_grace|].
  intros [|]; [|apply keeps_grace_of_emits, emits_ret].
  apply keeps_grace_bind.
  { apply keeps_grace_of_emits.
    eapply emits_weaken; [|apply wait_for_running_footprint].
    intros [rq rs|s|m] Hev; [destruct rq; cbn in *; first [reflexivity | tauto]
                            | reflexivity | reflexivity]. }
  intros _. apply keeps_grace_bind; [|intro; apply keeps_grace_of_emits, emits_ret].
  apply keeps_grace_of_emits. now apply emits_print.
Qed.

End GraceDelay.

(** X13: in every rotation, each wait for the termination of an instance
    comes right after a sleep of 10 seconds, which comes right after a
    termination request for the same instance that the provider
    answered: the wait is never started without the request having
    succeeded, nor without the grace delay. *)
Theorem restart_all_waits_after_request_and_grace_delay :
  forall aws fuel asg_name region ecs_cluster w r w',
    restart_all aws fuel asg_name region ecs_cluster w = (r, w') ->
    termination_waits_after_grace (log w) ->
    termination_waits_after_grace (log w').
Proof.
  intros aws fuel asg_name region ecs_cluster w r w' H Hinv.
  exact (restart_all_keeps_grace aws fuel asg_name region ecs_cluster w r w' H Hinv).
Qed.

Lemma restart_all_waits_after_request_and_grace_delay_witness :
  termination_waits_after_grace
    (log (snd (restart_all flaky_wait 30 "web-asg" "us-east-1" None w0))).
Proof.
  apply (restart_all_waits_after_request_and_grace_delay flaky_wait 30 "web-asg"
           "us-east-1" None w0
           (fst (restart_all flaky_wait 30 "web-asg" "us-east-1" None w0))).
  - vm_compute. reflexivity.
  - exact I.
Defined.

Example termination_wait_without_grace_is_rejected :
  ~ termination_waits_after_grace
      [EvCall (WaitInstanceTerminated "us-east-1" ["i-1"]) (Returned PNone);
       EvCall (TerminateInstances "us-east-1" ["i-1"]) (Returned PNone)].
Proof. intros [[p [pre H]] _]. discriminate H. Qed.

(** ** Run Summary Reporter *)

(** X14: [main] describes the group once before the rotation and once
    after it.  When the rotation returns normally it prints, last of all,
    the separator, the in-service members of the first description, those
    of the last one, the time elapsed on the clock, which is not negative,
    and the closing line.  When the rotation raises, [main] raises the same
    exception straight away: no second description, no summary. *)
Theorem main_reports_snapshots_or_fails_with_the_rotation :
  forall aws fuel asg_name region ecs_cluster w before,
    let describe := DescribeAutoScalingGroups region [asg_name] in
    let members := fun g => map InstanceId (filter in_service (Instances g)) in
    respond aws (log w) describe = Returned (PGroups before) ->
    let w1 := after_call aws describe w in
    (forall w2 after,
        restart_all aws fuel asg_name region ecs_cluster w1 = (Ok tt, w2) ->
        respond aws (log w2) describe = Returned (PGroups after) ->
        let w3 := after_call aws describe w2 in
        0 <= clock w3 - clock w
        /\ main aws fuel asg_name region ecs_cluster w
           = (Ok tt,
              mkWorld (clock w3)
                ([EvPrint MsgDone;
                  EvPrint (MsgTotalTime (clock w3 - clock w));
                  EvPrint (MsgFinal (map members after));
                  EvPrint (MsgOriginal (map members before));
                  EvPrint MsgSep] ++ log w3)))
    /\ (forall e w2,
          restart_all aws fuel asg_name region ecs_cluster w1 = (Raise e, w2) ->
          main aws fuel asg_name region ecs_cluster w = (Raise e, w2)).
Proof.
  intros aws fuel asg_name region ecs_cluster w before describe members Hbefore w1.
  assert (Hsnd : forall gs,
            map snd (map (fun g => (DesiredCapacity g, in_service_ids g)) gs)
            = map members gs).
  { intros gs. rewrite map_map. apply map_ext. intros g. cbn [snd].
    apply in_service_ids_filter. }
  split.
  - intros w2 after Hrun Hafter w3.
    destruct (restart_all_footprint aws fuel asg_name region ecs_cluster _ _ _ Hrun)
      as [Hc12 _].
    assert (Hc01 : clock w <= clock w1) by (unfold w1, after_call; cbn [clock]; lia).
    assert (Hc23 : clock w2 <= clock w3) by (unfold w3, after_call; cbn [clock]; lia).
    split; [lia|].
    unfold main. unfold bind at 1, time_time at 1.
    rewrite (bind_Ok _ _ _ _ _ (get_groups_Returned aws _ _ _ _ Hbefore)).
    fold describe. fold w1.
    rewrite (bind_Ok _ _ _ _ _ Hrun).
    rewrite (bind_Ok _ _ _ _ _ (get_groups_Returned aws _ _ _ _ Hafter)).
    fold describe. fold w3. rewrite !Hsnd.
    reflexivity.
  - intros e w2 Hrun.
    unfold main. unfold bind at 1, time_time at 1.
    rewrite (bind_Ok _ _ _ _ _ (get_groups_Returned aws _ _ _ _ Hbefore)).
    fold describe. fold w1.
    now rewrite (bind_Raise _ _ _ _ _ Hrun).
Qed.

Lemma main_reports_snapshots_or_fails_with_the_rotation_witness :
  fst (main stuck_instance 30 "web-asg" "us-east-1" None w0)
  = Raise (WaiterError "Max attempts exceeded")
  /\ hd_error (log (snd (main flaky_wait 30 "web-asg" "us-east-1" None w0)))
     = Some (EvPrint MsgDone).
Proof.
  split.
  - destruct (main_reports_snapshots_or_fails_with_the_rotation stuck_instance 30
                "web-asg" "us-east-1" None w0 [web_asg] eq_refl) as [_ Hfail].
    rewrite (Hfail (WaiterError "Max attempts exceeded")
               (snd (restart_all stuck_instance 30 "web-asg" "us-east-1" None
                       (after_call stuck_instance
                          (DescribeAutoScalingGroups "us-east-1" ["web-asg"]) w0))));
      [reflexivity | vm_compute; reflexivity].
  - destruct (main_reports_snapshots_or_fails_with_the_rotation flaky_wait 30
                "web-asg" "us-east-1" None w0 [web_asg] eq_refl) as [Hok _].
    destruct (Hok (snd (restart_all flaky_wait 30 "web-asg" "us-east-1" None
                          (after_call flaky_wait
                             (DescribeAutoScalingGroups "us-east-1" ["web-asg"]) w0)))
                [web_asg]) as [_ Hmain];
      [vm_compute; reflexivity | reflexivity |].
    rewrite Hmain. reflexivity.
Defined.
